(** * EDA-DashingBoard: the analysis engine of [app.py]

    [app.py] is a Streamlit script: it reads a CSV into a pandas DataFrame,
    asks for a target column, classifies the remaining columns and shows a
    battery of statistics.  This development embeds the analysis part of
    the script:

    - [Pandas] models the pandas operations the script calls
      ([select_dtypes], [Index.drop], [corr], [where], [stack],
      [sort_values], [head], [groupby(..).agg], [crosstab]) following their
      documented behaviour, with a raised [KeyError] as a value of [res];
    - [App] is the script itself, expression by expression, under the
      names the script gives them;
    - [Binary64] is the loop behind [DataFrame.corr] in the arithmetic
      the script runs in.

    Numbers.  In [Pandas] and [App] the cells of numeric columns are
    exact reals and a missing cell or an undefined statistic (pandas'
    NaN) is [None].  This fixes which entries a table has, their labels
    and their order.  The values pandas computes are binary64 numbers,
    equal to the exact ones up to rounding; where a statement depends on
    the rounding, [Binary64] computes them with the kernel's
    floating-point operations, and the statements about the risk table
    hold for any symmetric matrix of coefficients.

    Versions.  [DataFrame.stack] drops the missing entries up to pandas 2
    and keeps them from pandas 3 on; both are modelled ([stack],
    [stack_keepna]).

    Labels.  [read_csv] gives the columns of a frame different labels;
    the statements that depend on it assume [NoDup (columns df)]. *)

From Stdlib Require Import String Ascii Bool Arith Lia List.
From Stdlib Require Import Reals Lra Permutation Sorted.
From Stdlib Require PrimFloat.
Import ListNotations.

Set Implicit Arguments.

Open Scope string_scope.
Open Scope list_scope.

(* ------------------------------------------------------------------ *)
(** * Exceptions *)

Inductive exn : Type :=
| KeyError (label : string)
| IndexError (msg : string)
| TypeError (msg : string).

Inductive res (A : Type) : Type :=
| Ok (a : A)
| Raise (e : exn).

Arguments Ok {A} a.
Arguments Raise {A} e.

Definition bind {A B : Type} (m : res A) (k : A -> res B) : res B :=
  match m with
  | Ok a => k a
  | Raise e => Raise e
  end.

Declare Scope res_scope.
Delimit Scope res_scope with res.
Notation "x <- m ;; k" := (bind m (fun x => k))
  (at level 61, m at next level, right associativity) : res_scope.

(* ------------------------------------------------------------------ *)
(** * The pandas operations used by the script *)

Module Pandas.

(** Column dtypes: those [pd.read_csv] infers ([int64], [float64],
    [uint64], [bool], [object]) and the two others the script and its
    specification name ([category], [datetime64]). *)
Inductive dtype : Type :=
| Int64 | Float64 | UInt64 | Bool | Object | Category | Datetime64.

(** A cell: a number, a label, or missing. *)
Inductive cell : Type :=
| NaN
| Num (x : R)
| Str (s : string).

Record column : Type := mkColumn {
  name : string;
  dt : dtype;
  values : list cell
}.

(** A DataFrame is the list of its columns, in column order. *)
Definition DataFrame : Type := list column.

(** An [Index] of column labels. *)
Definition Index : Type := list string.

Definition columns (df : DataFrame) : Index := map name df.

(** [label in index] *)
Definition contains (idx : Index) (label : string) : bool :=
  existsb (String.eqb label) idx.

(** The labels of an index other than [label]. *)
Definition without (label : string) (idx : Index) : Index :=
  filter (fun l => negb (String.eqb l label)) idx.

(** [Index.drop(label)]: every occurrence of the label is removed; a
    label that is not found raises [KeyError]. *)
Definition drop (idx : Index) (label : string) : res Index :=
  if contains idx label
  then Ok (without label idx)
  else Raise (KeyError label).

(** [df[label]] *)
Fixpoint getitem (df : DataFrame) (label : string) : res column :=
  match df with
  | [] => Raise (KeyError label)
  | c :: rest => if String.eqb (name c) label then Ok c else getitem rest label
  end.

(** [df[labels]] *)
Fixpoint getitems (df : DataFrame) (labels : Index) : res DataFrame :=
  match labels with
  | [] => Ok []
  | l :: rest =>
      bind (getitem df l) (fun c =>
      bind (getitems df rest) (fun cs => Ok (c :: cs)))
  end.

(** [pd.api.types.is_numeric_dtype]: the integer, unsigned, floating and
    boolean dtypes. *)
Definition is_numeric_dtype (d : dtype) : bool :=
  match d with
  | Int64 | Float64 | UInt64 | Bool => true
  | Object | Category | Datetime64 => false
  end.

(** The selectors the script passes to [select_dtypes(include=...)]. *)
Inductive selector : Type :=
| number | int64 | float64 | object | category.

(** ["number"] selects the subclasses of [np.number]; [bool] is not one. *)
Definition selects (s : selector) (d : dtype) : bool :=
  match s, d with
  | number, (Int64 | Float64 | UInt64) => true
  | int64, Int64 => true
  | float64, Float64 => true
  | object, Object => true
  | category, Category => true
  | _, _ => false
  end.

Definition select_dtypes (include : list selector) (df : DataFrame)
  : DataFrame :=
  filter (fun c => existsb (fun s => selects s (dt c)) include) df.

(** ** Labelled values *)

(** A [Series]: labelled values, in index order. *)
Definition Series (L V : Type) : Type := list (L * V).

(** A [Frame]: a table of values addressed by row and column label.
    Elementwise operations of two frames align on the labels. *)
Record Frame (V : Type) : Type := mkFrame {
  index : Index;
  cols : Index;
  at_ : string -> string -> V
}.

Definition applymap {V W : Type} (f : V -> W) (m : Frame V) : Frame W :=
  mkFrame (index m) (cols m) (fun r c => f (at_ m r c)).

(** [m1 & m2] on boolean frames *)
Definition and_ (m1 m2 : Frame bool) : Frame bool :=
  mkFrame (index m1) (cols m1) (fun r c => at_ m1 r c && at_ m2 r c).

(** [m[label]]: one column of a frame, as a series over the rows. *)
Definition frame_getitem {V : Type} (m : Frame V) (label : string)
  : res (Series string V) :=
  if contains (cols m) label
  then Ok (map (fun r => (r, at_ m r label)) (index m))
  else Raise (KeyError label).

(** [m.iloc[i, j]] *)
Definition iloc {V : Type} (m : Frame V) (i j : nat) : res V :=
  match nth_error (index m) i, nth_error (cols m) j with
  | Some r, Some c => Ok (at_ m r c)
  | _, _ => Raise (IndexError "single positional indexer is out-of-bounds")
  end.

(** [Series.drop(label)] *)
Definition series_drop {V : Type} (s : Series string V) (label : string)
  : res (Series string V) :=
  if contains (map fst s) label
  then Ok (filter (fun e => negb (String.eqb (fst e) label)) s)
  else Raise (KeyError label).

(** [Series.head(k)] *)
Definition head {L V : Type} (k : nat) (s : Series L V) : Series L V :=
  firstn k s.

(** ** Comparisons and sorting *)

Definition Rleb (x y : R) : bool := if Rle_dec x y then true else false.
Definition Rltb (x y : R) : bool := if Rlt_dec x y then true else false.

(** Comparison of a possibly missing value with a scalar: any comparison
    with NaN is [False]. *)
Definition gt (v : option R) (c : R) : bool :=
  match v with Some x => Rltb c x | None => false end.
Definition lt (v : option R) (c : R) : bool :=
  match v with Some x => Rltb x c | None => false end.

(** Orders used by [sort_values]; missing values go last in both
    directions ([na_position="last"]). *)
Definition ascending (a b : option R) : bool :=
  match a, b with
  | _, None => true
  | None, Some _ => false
  | Some x, Some y => Rleb x y
  end.

Definition descending (a b : option R) : bool :=
  match a, b with
  | _, None => true
  | None, Some _ => false
  | Some x, Some y => Rleb y x
  end.

Section Sorting.
Variable A : Type.
Variable leb : A -> A -> bool.

Fixpoint insert (x : A) (l : list A) : list A :=
  match l with
  | [] => [x]
  | y :: l' => if leb x y then x :: l else y :: insert x l'
  end.

(** The order pandas leaves between equal keys is not specified by its
    default sort; the model sorts by insertion. *)
Fixpoint sort (l : list A) : list A :=
  match l with
  | [] => []
  | x :: l' => insert x (sort l')
  end.

End Sorting.

(** [Series.sort_values(ascending=...)] on a series of possibly missing
    numbers. *)
Definition sort_values {L : Type} (asc : bool) (s : Series L (option R))
  : Series L (option R) :=
  sort (fun a b => (if asc then ascending else descending) (snd a) (snd b)) s.

(** The same on a series without missing values. *)
Definition sort_values_R {L : Type} (asc : bool) (s : Series L R)
  : Series L R :=
  sort (fun a b => if asc then Rleb (snd a) (snd b)
                   else Rleb (snd b) (snd a)) s.

(** [Index.sort_values()] / [sort_index()] on string labels: ascending by
    code point. *)
Definition sort_labels (idx : Index) : Index := sort String.leb idx.

(** ** Statistics *)

Definition to_num (c : cell) : option R :=
  match c with Num x => Some x | _ => None end.

Definition to_label (c : cell) : option string :=
  match c with Str s => Some s | _ => None end.

(** The non-missing numbers of a list of cells. *)
Fixpoint dropna (cs : list cell) : list R :=
  match cs with
  | [] => []
  | c :: cs' =>
      match to_num c with
      | Some x => x :: dropna cs'
      | None => dropna cs'
      end
  end.

Definition sum (xs : list R) : R := fold_right Rplus 0%R xs.

Definition mean (xs : list R) : R := (sum xs / INR (length xs))%R.

(** Sum of squared deviations from the mean. *)
Definition ssqdm (xs : list R) : R :=
  sum (map (fun x => (x - mean xs) * (x - mean xs))%R xs).

(** [count]: the number of non-missing values. *)
Definition count (cs : list cell) : nat := length (dropna cs).

(** [median], missing values skipped; NaN for an empty group.  In exact
    arithmetic: pandas takes it of the [float64] values of the cells. *)
Definition median (cs : list cell) : option R :=
  let s := sort Rleb (dropna cs) in
  let n := length s in
  if (n =? 0)%nat then None
  else if Nat.odd n then Some (nth (n / 2) s 0%R)
  else Some ((nth (n / 2 - 1) s 0%R + nth (n / 2) s 0%R) / 2)%R.

(** [std], the sample standard deviation ([ddof=1]), missing values
    skipped; NaN when fewer than two values remain.  In exact
    arithmetic, as [median]. *)
Definition std (cs : list cell) : option R :=
  let xs := dropna cs in
  let n := length xs in
  if (n <=? 1)%nat then None
  else Some (sqrt (ssqdm xs / (INR n - 1)))%R.

(** The rows on which both columns have a number. *)
Fixpoint complete_pairs (xs ys : list cell) : list (R * R) :=
  match xs, ys with
  | x :: xs', y :: ys' =>
      match to_num x, to_num y with
      | Some a, Some b => (a, b) :: complete_pairs xs' ys'
      | _, _ => complete_pairs xs' ys'
      end
  | _, _ => []
  end.

(** Pearson's coefficient of two columns over their pairwise complete
    rows ([min_periods=1]), in exact arithmetic: the sum of the products
    of the deviations over the root of the product of the two sums of
    squares; NaN when no row is complete or when that divisor is zero.
    [Binary64.nancorr] is the same loop with its rounding. *)
Definition pearson (xs ys : list cell) : option R :=
  let ps := complete_pairs xs ys in
  if (length ps <? 1)%nat then None
  else
    let vx := map fst ps in
    let vy := map snd ps in
    let covxy :=
      sum (map (fun p => (fst p - mean vx) * (snd p - mean vy))%R ps) in
    let divisor := sqrt (ssqdm vx * ssqdm vy) in
    if Req_dec_T divisor 0 then None else Some (covxy / divisor)%R.

(** A column that takes two different values. *)
Definition non_constant (cs : list cell) : Prop :=
  exists x y, In (Num x) cs /\ In (Num y) cs /\ x <> y.

(** [DataFrame.corr()] on a frame of number columns, the only frames
    the script calls it on (lines 138, 164, 180): the matrix of pairwise
    coefficients of the columns, in exact arithmetic. *)
Definition corr (df : DataFrame) : Frame (option R) :=
  mkFrame (columns df) (columns df)
    (fun r c =>
       match getitem df r, getitem df c with
       | Ok a, Ok b => pearson (values a) (values b)
       | _, _ => None
       end).

(** [m.abs()] *)
Definition abs (m : Frame (option R)) : Frame (option R) :=
  applymap (option_map Rabs) m.

(** [m.where(mask)]: entries where the mask is false become NaN. *)
Definition where_ (m : Frame (option R)) (mask : Frame bool)
  : Frame (option R) :=
  mkFrame (index m) (cols m)
    (fun r c => if at_ mask r c then at_ m r c else None).

(** [m.stack()] up to pandas 2: the entries row by row, labelled by
    (row, column); missing entries are dropped ([dropna=True]). *)
Definition stack (m : Frame (option R)) : Series (string * string) R :=
  flat_map (fun r =>
    flat_map (fun c =>
      match at_ m r c with
      | Some v => [((r, c), v)]
      | None => []
      end) (cols m)) (index m).

(** [m.stack()] from pandas 3 on: every entry has its row, the missing
    ones too. *)
Definition stack_keepna (m : Frame (option R))
  : Series (string * string) (option R) :=
  flat_map (fun r => map (fun c => ((r, c), at_ m r c)) (cols m)) (index m).

(** ** Grouping *)

(** Aggregates of one group: [.agg(["median", "std", "count"])]. *)
Record agg_row : Type := mkAgg {
  agg_median : option R;
  agg_std : option R;
  agg_count : nat
}.

(** Put a value in the group of its key, opening the group if needed. *)
Fixpoint add_to_group (k : string) (v : cell)
  (gs : list (string * list cell)) : list (string * list cell) :=
  match gs with
  | [] => [(k, [v])]
  | (k', vs) :: rest =>
      if String.eqb k k' then (k', v :: vs) :: rest
      else (k', vs) :: add_to_group k v rest
  end.

(** The split step of [groupby]: rows whose key is missing are left out
    ([dropna=True]); inside a group the rows keep their order. *)
Fixpoint split_groups (keys vals : list cell) : list (string * list cell) :=
  match keys, vals with
  | k :: keys', v :: vals' =>
      match to_label k with
      | Some s => add_to_group s v (split_groups keys' vals')
      | None => split_groups keys' vals'
      end
  | _, _ => []
  end.

(** [GroupBy.get_group(c)]; empty when there is no such group. *)
Fixpoint get_group (c : string) (gs : list (string * list cell))
  : list cell :=
  match gs with
  | [] => []
  | (k, vs) :: rest => if String.eqb c k then vs else get_group c rest
  end.

(** The cells of [vals] on the rows whose key is the label [c], top to
    bottom. *)
Fixpoint rows_labelled (c : string) (keys vals : list cell) : list cell :=
  match keys, vals with
  | k :: keys', v :: vals' =>
      match to_label k with
      | Some s =>
          if String.eqb c s then v :: rows_labelled c keys' vals'
          else rows_labelled c keys' vals'
      | None => rows_labelled c keys' vals'
      end
  | _, _ => []
  end.

(** [groupby(key)[val]]: the groups in ascending key order
    ([sort=True]). *)
Definition groupby (key val : column) : list (string * list cell) :=
  sort (fun a b => String.leb (fst a) (fst b))
       (split_groups (values key) (values val)).

(** ** Cross tabulation *)

(** The label pairs of the rows where neither label is missing. *)
Fixpoint label_pairs (xs ys : list cell) : list (string * string) :=
  match xs, ys with
  | x :: xs', y :: ys' =>
      match to_label x, to_label y with
      | Some a, Some b => (a, b) :: label_pairs xs' ys'
      | _, _ => label_pairs xs' ys'
      end
  | _, _ => []
  end.

Definition pair_eqb (p q : string * string) : bool :=
  String.eqb (fst p) (fst q) && String.eqb (snd p) (snd q).

Definition occurrences (p : string * string) (ps : list (string * string))
  : nat :=
  length (filter (pair_eqb p) ps).

(** [pd.crosstab(rows, columns, normalize="index")]: the frequency table
    of the label pairs, each row divided by its total. *)
Definition crosstab (rows columns_ : list cell) : Frame R :=
  let ps := label_pairs rows columns_ in
  let rlabels := sort_labels (nodup string_dec (map fst ps)) in
  let clabels := sort_labels (nodup string_dec (map snd ps)) in
  let total r := sum (map (fun c => INR (occurrences (r, c) ps)) clabels) in
  mkFrame rlabels clabels
    (fun r c => (INR (occurrences (r, c) ps) / total r)%R).

(** [m.sort_index()] *)
Definition sort_index {V : Type} (m : Frame V) : Frame V :=
  mkFrame (sort_labels (index m)) (cols m) (at_ m).

(** The cells of [vals] on the rows whose key is a label. *)
Fixpoint rows_with_label (keys vals : list cell) : list cell :=
  match keys, vals with
  | k :: keys', v :: vals' =>
      match to_label k with
      | Some _ => v :: rows_with_label keys' vals'
      | None => rows_with_label keys' vals'
      end
  | _, _ => []
  end.

(** ** Counting values *)

Definition isna (c : cell) : bool :=
  match c with NaN => true | _ => false end.

Definition cell_eqb (a b : cell) : bool :=
  match a, b with
  | NaN, NaN => true
  | Num x, Num y => if Req_dec_T x y then true else false
  | Str s, Str t => String.eqb s t
  | _, _ => false
  end.

(** One more occurrence of [k]: its count goes up, or it enters the
    table, at the end, with count 1. *)
Fixpoint bump (k : cell) (t : list (cell * nat)) : list (cell * nat) :=
  match t with
  | [] => [(k, 1)]
  | (k', n) :: rest =>
      if cell_eqb k k' then (k', S n) :: rest else (k', n) :: bump k rest
  end.

(** The table of the values met so far, in order of first appearance;
    missing cells are not counted ([dropna=True]). *)
Fixpoint tally_from (t : list (cell * nat)) (cs : list cell)
  : list (cell * nat) :=
  match cs with
  | [] => t
  | c :: rest => tally_from (if isna c then t else bump c t) rest
  end.

(** [Series.value_counts()]: the distinct values with their number of
    occurrences, most frequent first. *)
Definition value_counts (cs : list cell) : Series cell nat :=
  sort (fun a b => Nat.leb (snd b) (snd a)) (tally_from [] cs).

(** The count a table holds for [k]; 0 when [k] is not in it. *)
Fixpoint tally_get (k : cell) (t : list (cell * nat)) : nat :=
  match t with
  | [] => 0
  | (k', n) :: rest => if cell_eqb k k' then n else tally_get k rest
  end.

(** The number of cells of [cs] equal to [k]. *)
Definition occurs (k : cell) (cs : list cell) : nat :=
  length (filter (cell_eqb k) cs).

(** ** Shape and missing values *)

(** [df.shape]: rows and columns. *)
Definition shape (df : DataFrame) : nat * nat :=
  (match df with [] => 0 | c :: _ => length (values c) end, length df).

(** [df.isna().sum()]: the missing cells of each column. *)
Definition isna_sum (df : DataFrame) : Series string nat :=
  map (fun c => (name c, length (filter isna (values c)))) df.

(** [Series.sum()] *)
Definition series_sum {L : Type} (s : Series L nat) : nat :=
  fold_right (fun e acc => snd e + acc) 0 s.

(** [df.head(n)] *)
Definition head_rows (n : nat) (df : DataFrame) : DataFrame :=
  map (fun c => mkColumn (name c) (dt c) (firstn n (values c))) df.

(** All columns have the same number of cells. *)
Definition rectangular (df : DataFrame) : Prop :=
  forall c, In c df -> length (values c) = fst (shape df).

End Pandas.

(* ------------------------------------------------------------------ *)
(** * The script *)

Module App.
Import Pandas.
Local Open Scope res_scope.

(** ** Schema classification (lines 22-31, 274-277, 291) *)

Section Schema.
Variable df : DataFrame.
Variable target : string.

Definition is_target_numeric : res bool :=
  c <- getitem df target ;; Ok (is_numeric_dtype (dt c)).

Definition is_target_categorical : res bool :=
  numeric <- is_target_numeric ;; Ok (negb numeric).

Definition all_num : Index := columns (select_dtypes [number] df).
Definition all_cat : Index := columns (select_dtypes [object; category] df).

Definition num_features : res Index :=
  if contains all_num target then drop all_num target else Ok all_num.

Definition cat_features : res Index :=
  if contains all_cat target then drop all_cat target else Ok all_cat.

Definition num_for_class : res Index :=
  let num_for_class := columns (select_dtypes [number] df) in
  if contains num_for_class target then drop num_for_class target
  else Ok num_for_class.

Definition cat_for_class : res Index :=
  drop (columns (select_dtypes [object; category] df)) target.

End Schema.

(** ** Correlations (lines 35-37, 137-143, 164, 177-190) *)

(** [st.cache_data] memoises on the argument; the value is that of the
    call. *)
Definition get_correlation (df : DataFrame) : Frame (option R) :=
  Pandas.corr df.

Section Correlation.
Variable df : DataFrame.
Variable target : string.

(** The top-K ranking against the target. *)
Definition corr (k : nat) : res (Series string (option R)) :=
  s <- frame_getitem
         (Pandas.corr (select_dtypes [int64; float64] df)) target ;;
  s <- series_drop s target ;;
  Ok (head k (sort_values false s)).

(** The coefficient shown by the redundancy check. *)
Definition corr_val (f1 f2 : string) : res (option R) :=
  sub <- getitems df [f1; f2] ;;
  iloc (Pandas.corr sub) 0 1.

Definition corr_matrix (num_features : Index) : res (Frame (option R)) :=
  sub <- getitems df num_features ;;
  Ok (abs (get_correlation sub)).

Definition high_corr_pairs (corr_matrix : Frame (option R))
  : Series (string * string) R :=
  sort_values_R false
    (stack
       (where_ corr_matrix
          (and_ (applymap (fun v => gt v 0.8) corr_matrix)
                (applymap (fun v => lt v 1.0) corr_matrix)))).

(** The same expression from pandas 3 on, where [stack] keeps the
    entries the mask has emptied. *)
Definition high_corr_pairs_keepna (corr_matrix : Frame (option R))
  : Series (string * string) (option R) :=
  sort_values false
    (stack_keepna
       (where_ corr_matrix
          (and_ (applymap (fun v => gt v 0.8) corr_matrix)
                (applymap (fun v => lt v 1.0) corr_matrix)))).

End Correlation.

(** ** Categorical analysis (lines 201, 212-213, 295) *)

Section Categorical.
Variable df : DataFrame.
Variable target : string.

(** [groupby(None)] raises. *)
Definition by_ (cat_feature : option string) : res string :=
  match cat_feature with
  | Some f => Ok f
  | None => Raise (TypeError "You have to supply one of 'by' and 'level'")
  end.

Definition impact (cat_feature : option string)
  : res (Series string (option R)) :=
  f <- by_ cat_feature ;;
  key <- getitem df f ;;
  val <- getitem df target ;;
  Ok (sort_values true
        (map (fun g => (fst g, median (snd g))) (groupby key val))).

Definition stats (cat_feature : option string)
  : res (Series string agg_row) :=
  f <- by_ cat_feature ;;
  key <- getitem df f ;;
  val <- getitem df target ;;
  let stats :=
    map (fun g => (fst g,
                   mkAgg (median (snd g)) (std (snd g)) (count (snd g))))
        (groupby key val) in
  Ok (sort (fun a b => ascending (agg_median (snd a)) (agg_median (snd b)))
           stats).

(** [df[None]] raises [KeyError]. *)
Definition crosstab (cat_feature : option string) : res (Frame R) :=
  match cat_feature with
  | None => Raise (KeyError "None")
  | Some f =>
      key <- getitem df f ;;
      tgt <- getitem df target ;;
      Ok (sort_index (Pandas.crosstab (values key) (values tgt)))
  end.

End Categorical.

(** ** The script as a sequence of rendered elements *)

(** What the script hands to Streamlit; a chart carries the table it is
    drawn from.  An element stands for the pandas computation behind it:
    the Plotly call that draws a chart is not modelled, nor are the
    charts drawn from the frame itself (the overview, the histograms,
    box plots and trend lines of tabs 1 to 3). *)
Inductive element : Type :=
| info (body : string)
| warning (body : string)
| bar (data : Series string (option R))
| scatter_pair (x y : string) (corr_val : option R)
| dataframe (data : Series (string * string) R)
| scatter (data : Series string agg_row)
| imshow (data : Frame R).

(** How a run of the script ends: at its last line, at [st.stop()], or
    at an uncaught exception. *)
Inductive outcome (A : Type) : Type :=
| Done (a : A)
| Stopped
| Failed (e : exn).

Arguments Done {A} a.
Arguments Stopped {A}.
Arguments Failed {A} e.

(** A piece of the script: the elements it renders and how it ends. *)
Definition script (A : Type) : Type := (list element * outcome A)%type.

Definition ret {A : Type} (a : A) : script A := ([], Done a).

Definition seq {A B : Type} (m : script A) (k : A -> script B) : script B :=
  match m with
  | (out, Done a) => let (out', o) := k a in (out ++ out', o)
  | (out, Stopped) => (out, Stopped)
  | (out, Failed e) => (out, Failed e)
  end.

Definition render (e : element) : script unit := ([e], Done tt).

Definition stop {A : Type} : script A := ([], Stopped).

Definition eval {A : Type} (r : res A) : script A :=
  match r with
  | Ok a => ([], Done a)
  | Raise e => ([], Failed e)
  end.

(** [st.selectbox(label, options)]: the option the user picked, the
    first option while nothing valid is picked, [None] when there is no
    option. *)
Definition selectbox (options : Index) (pick : option string)
  : option string :=
  match options with
  | [] => None
  | first :: _ =>
      match pick with
      | Some p => if contains options p then Some p else Some first
      | None => Some first
      end
  end.

Definition option_eqb (a b : option string) : bool :=
  match a, b with
  | Some x, Some y => String.eqb x y
  | None, None => true
  | _, _ => false
  end.

(** The state of the widgets. *)
Record widgets : Type := mkWidgets {
  k : nat;
  f1 : option string;
  f2 : option string;
  cat_feature : option string
}.

Section Tabs.
Variable df : DataFrame.
Variable target : string.

(** Tab 4, "Potential Multicollinearity Risks" (lines 175-190). *)
Definition multicollinearity_risks : script unit :=
  seq (eval (num_features df target)) (fun num_features =>
  if (length num_features <? 2)%nat
  then render
         (info "Not enough numerical features for correlation analysis.")
  else
    seq (eval (corr_matrix df num_features)) (fun corr_matrix =>
    render (dataframe (high_corr_pairs corr_matrix)))).

(** Tab 4, "Feature Redundancy Check" (lines 155-173). *)
Definition redundancy_check (w : widgets) : script unit :=
  seq (eval (num_features df target)) (fun num_features =>
  let f1 := selectbox num_features (f1 w) in
  let f2 := selectbox num_features (f2 w) in
  if option_eqb f1 f2 then ret tt
  else
    match f1, f2 with
    | Some f1, Some f2 =>
        seq (eval (corr_val df f1 f2)) (fun corr_val =>
        render (scatter_pair f1 f2 corr_val))
    | _, _ => ret tt
    end).

(** Tab 5, "Categorical" (lines 194-224). *)
Definition tab5 (w : widgets) : script unit :=
  seq (eval (cat_features df target)) (fun cat_features =>
  let cat_feature := selectbox cat_features (cat_feature w) in
  seq (eval (impact df target cat_feature)) (fun impact =>
  seq (render (bar impact)) (fun _ =>
  seq (eval (stats df target cat_feature)) (fun stats =>
  render (scatter stats))))).

(** Tab 2 of the categorical branch, from line 289 on. *)
Definition class_behaviour (w : widgets) : script unit :=
  seq (eval (cat_for_class df target)) (fun cat_for_class =>
  let cat_feature := selectbox cat_for_class (cat_feature w) in
  seq (eval (crosstab df target cat_feature)) (fun crosstab =>
  render (imshow crosstab))).

End Tabs.

(** ** The overview and the class distribution (lines 58-62, 262) *)

(** The three metrics of the overview: rows, columns, missing values. *)
Definition metrics (df : DataFrame) : nat * nat * nat :=
  (fst (shape df), snd (shape df), series_sum (isna_sum df)).

(** The rows shown under the metrics. *)
Definition preview (df : DataFrame) : DataFrame := head_rows 10 df.

Definition class_counts (df : DataFrame) (target : string)
  : res (Series cell nat) :=
  c <- getitem df target ;; Ok (value_counts (values c)).

End App.

(* ------------------------------------------------------------------ *)
(** * The coefficients in binary64 *)

(** [DataFrame.corr()] converts the columns to [float64] and hands them
    to the loop [nancorr] (pandas 2, [min_periods=1]): Welford's running
    means and sums of squares over the rows where both cells are finite.
    The operations below are the kernel's binary64 operations, rounded
    to nearest even as the processor rounds them. *)
Module Binary64.
Import PrimFloat.
Local Open Scope float_scope.

(** The accumulators of the loop.  [nobs] counts rows; a count is exact
    in binary64 up to 2^53 rows. *)
Record welford : Type := mkWelford {
  nobs : float;
  meanx : float;
  meany : float;
  ssqdmx : float;
  ssqdmy : float;
  covxy : float
}.

(** [np.isfinite] *)
Definition isfinite (x : float) : bool :=
  negb (orb (is_nan x) (is_infinity x)).

(** One row. *)
Definition step (w : welford) (vx vy : float) : welford :=
  if andb (isfinite vx) (isfinite vy) then
    let nobs := nobs w + 1 in
    let dx := vx - meanx w in
    let dy := vy - meany w in
    let meanx := meanx w + 1 / nobs * dx in
    let meany := meany w + 1 / nobs * dy in
    mkWelford nobs meanx meany
      (ssqdmx w + (vx - meanx) * dx)
      (ssqdmy w + (vy - meany) * dy)
      (covxy w + (vx - meanx) * dy)
  else w.

Fixpoint rows (w : welford) (xs ys : list float) : welford :=
  match xs, ys with
  | vx :: xs', vy :: ys' => rows (step w vx vy) xs' ys'
  | _, _ => w
  end.

(** The coefficient of the columns [xs] and [ys]; NaN without a complete
    row or with a zero divisor. *)
Definition nancorr (xs ys : list float) : float :=
  let w := rows (mkWelford 0 0 0 0 0 0) xs ys in
  if nobs w <? 1 then nan
  else
    let divisor := sqrt (ssqdmx w * ssqdmy w) in
    if divisor =? 0 then nan else covxy w / divisor.

(** The position of a label among the column labels. *)
Fixpoint position (label : string) (names : list string) : option nat :=
  match names with
  | [] => None
  | n :: rest =>
      if String.eqb n label then Some O
      else option_map S (position label rest)
  end.

(** The matrix.  The loop runs once for each pair of positions
    [yi <= xi], the later column as [xs], and its result is stored at
    [(xi, yi)] and at [(yi, xi)]. *)
Definition corr (df : list (string * list float)) : Pandas.Frame float :=
  let names := map fst df in
  let column i := nth i (map snd df) [] in
  Pandas.mkFrame names names
    (fun a b =>
       match position a names, position b names with
       | Some i, Some j =>
           if Nat.leb j i then nancorr (column i) (column j)
           else nancorr (column j) (column i)
       | _, _ => nan
       end).

(** Lines 35-37 on a frame of [float64] columns. *)
Definition get_correlation (df : list (string * list float))
  : Pandas.Frame float :=
  corr df.

(** A column that takes two different finite values. *)
Definition non_constant (xs : list float) : bool :=
  existsb (fun x =>
    existsb (fun y => andb (andb (isfinite x) (isfinite y)) (negb (x =? y)))
            xs) xs.




End Binary64.

(* ------------------------------------------------------------------ *)
(** * Sample datasets *)

Module Samples.
Import Pandas.

Definition nums (xs : list R) : list cell := map Num xs.
Definition strs (xs : list string) : list cell := map Str xs.

(** The columns of the churn scenario: two numbers, two categories. *)
Definition churn : DataFrame :=
  [ mkColumn "age" Int64 (nums [31; 45; 27]%R);
    mkColumn "income" Float64 (nums [40; 85; 33]%R);
    mkColumn "city" Category (strs ["Pune"; "Agra"; "Pune"]);
    mkColumn "churned" Category (strs ["no"; "yes"; "no"]) ].

(** A frame whose last column holds timestamps. *)
Definition visits : DataFrame :=
  [ mkColumn "amount" Float64 (nums [12; 7; 9]%R);
    mkColumn "city" Object (strs ["Pune"; "Agra"; "Pune"]);
    mkColumn "when" Datetime64 [NaN; NaN; NaN] ].

(** Two features that rise together, and a target. *)
Definition steps : DataFrame :=
  [ mkColumn "x" Int64 (nums [1; 2; 3; 4; 5]%R);
    mkColumn "y" Int64 (nums [1; 2; 3; 5; 4]%R);
    mkColumn "t" Float64 (nums [3; 1; 4; 1; 5]%R) ].


(** Two features with coefficients -0.95 and +0.5 against the target
    [yield]. *)
Definition slopes : DataFrame :=
  [ mkColumn "drag" Float64 (nums [-19; 19; 2; 5; -7]%R);
    mkColumn "lift" Float64 (nums [1; 0; -1; 0; 0]%R);
    mkColumn "yield" Float64 (nums [1; -1; 0; 0; 0]%R) ].

(** A frame with an unsigned 64-bit column, as [read_csv] infers for
    integers from 2^63 on, and a boolean one ([True] and [False] as 1
    and 0). *)
Definition ledger : DataFrame :=
  [ mkColumn "units" Int64 (nums [3; 1; 2]%R);
    mkColumn "account" UInt64
      (nums [9223372036854775808; 9223372036854775809;
             9223372036854775810]%R);
    mkColumn "paid" Bool (nums [1; 0; 1]%R);
    mkColumn "revenue" Float64 (nums [30; 12; 25]%R) ].

(** Region A with ten sales and region B with one. *)
Definition sales : DataFrame :=
  [ mkColumn "region" Object
      (strs ["A"; "A"; "B"; "A"; "A"; "A"; "A"; "A"; "A"; "A"; "A"]);
    mkColumn "price" Float64
      (nums [10; 12; 40; 11; 9; 13; 10; 12; 11; 10; 12]%R) ].

(** Two features with coefficients -0.95 and +0.5 against a boolean
    target ([True] and [False] as 1 and 0). *)
Definition alarms : DataFrame :=
  [ mkColumn "load" Int64 (nums [0; 1; 2; 2; 3; -6]%R);
    mkColumn "gain" Int64 (nums [-6; -5; -4; -3; -2; -2]%R);
    mkColumn "tripped" Bool (nums [0; 0; 0; 0; 0; 1]%R) ].


(** A feature that never moves, one that does, and a target. *)
Definition flat : DataFrame :=
  [ mkColumn "level" Int64 (nums [7; 7; 7]%R);
    mkColumn "speed" Float64 (nums [1; 2; 4]%R);
    mkColumn "t" Float64 (nums [5; 3; 8]%R) ].

End Samples.

(* ------------------------------------------------------------------ *)
(** * Properties *)

Import Pandas App.

Unset Implicit Arguments.

(** ** Labels and indexes *)

Section IndexFacts.

Lemma contains_In (idx : Index) (l : string) :
  contains idx l = true <-> In l idx.
Proof.
  unfold contains. rewrite existsb_exists. split.
  - intros [x [Hin Heq]]. apply String.eqb_eq in Heq. now subst.
  - intros Hin. exists l. split; [assumption | apply String.eqb_refl].
Qed.

Lemma contains_false (idx : Index) (l : string) :
  contains idx l = false <-> ~ In l idx.
Proof.
  rewrite <- contains_In. destruct (contains idx l); split; intros H;
    congruence.
Qed.

Lemma In_without (l x : string) (idx : Index) :
  In x (without l idx) <-> In x idx /\ x <> l.
Proof.
  unfold without. rewrite filter_In, negb_true_iff. split.
  - intros [H1 H2]. split; [assumption|]. now apply String.eqb_neq.
  - intros [H1 H2]. split; [assumption|]. now apply String.eqb_neq.
Qed.

Lemma drop_Ok (idx : Index) (l : string) :
  In l idx -> drop idx l = Ok (without l idx).
Proof.
  intros H. unfold drop. apply contains_In in H. now rewrite H.
Qed.

Lemma drop_Raise (idx : Index) (l : string) :
  ~ In l idx -> drop idx l = Raise (KeyError l).
Proof.
  intros H. unfold drop. apply contains_false in H. now rewrite H.
Qed.

Lemma without_not_In (l : string) (idx : Index) :
  ~ In l idx -> without l idx = idx.
Proof.
  intros H. unfold without. induction idx as [|x idx IH]; [reflexivity|].
  simpl. destruct (String.eqb_spec x l) as [->|Hne].
  - exfalso. apply H. now left.
  - simpl. f_equal. apply IH. intros Hin. apply H. now right.
Qed.

Lemma In_columns_select (sel : list selector) (df : DataFrame) (l : string) :
  In l (columns (select_dtypes sel df)) <->
  exists c, In c df /\ name c = l /\
            existsb (fun s => selects s (dt c)) sel = true.
Proof.
  unfold columns, select_dtypes. rewrite in_map_iff. split.
  - intros [c [Hn Hc]]. apply filter_In in Hc. exists c. tauto.
  - intros [c [Hc [Hn Hs]]]. exists c. split; [assumption|].
    apply filter_In. tauto.
Qed.

Lemma NoDup_columns_inj (df : DataFrame) (c1 c2 : column) :
  NoDup (columns df) -> In c1 df -> In c2 df -> name c1 = name c2 -> c1 = c2.
Proof.
  unfold columns. induction df as [|c df IH]; simpl; [tauto|].
  intros Hnd H1 H2 Heq. inversion Hnd as [|? ? Hnotin Hnd']; subst.
  destruct H1 as [->|H1], H2 as [->|H2]; try reflexivity.
  - exfalso. apply Hnotin. rewrite Heq. now apply in_map.
  - exfalso. apply Hnotin. rewrite <- Heq. now apply in_map.
  - now apply IH.
Qed.

Lemma getitem_Ok_In (df : DataFrame) (l : string) (c : column) :
  getitem df l = Ok c -> In c df /\ name c = l.
Proof.
  induction df as [|c' df IH]; simpl; [discriminate|].
  destruct (String.eqb_spec (name c') l) as [Heq|Hne].
  - intros [= ->]. split; [now left | assumption].
  - intros H. destruct (IH H). split; [now right | assumption].
Qed.

Lemma getitem_In (df : DataFrame) (c : column) :
  NoDup (columns df) -> In c df -> getitem df (name c) = Ok c.
Proof.
  intros Hnd Hin. induction df as [|c' df IH]; simpl; [destruct Hin|].
  destruct (String.eqb_spec (name c') (name c)) as [Heq|Hne].
  - f_equal. apply NoDup_columns_inj with (df := c' :: df); simpl; auto.
  - destruct Hin as [->|Hin]; [congruence|].
    apply IH; [|assumption]. now inversion Hnd.
Qed.

Lemma getitem_Raise (df : DataFrame) (l : string) :
  ~ In l (columns df) -> getitem df l = Raise (KeyError l).
Proof.
  induction df as [|c df IH]; simpl; [reflexivity|].
  intros H. destruct (String.eqb_spec (name c) l) as [Heq|Hne].
  - exfalso. apply H. now left.
  - apply IH. intros Hin. apply H. now right.
Qed.

Lemma NoDup_columns_filter (p : column -> bool) (df : DataFrame) :
  NoDup (columns df) -> NoDup (columns (filter p df)).
Proof.
  unfold columns. induction df as [|c df IH]; simpl; [constructor|].
  intros Hnd. inversion Hnd as [|? ? Hnotin Hnd']; subst.
  destruct (p c); simpl; [|now apply IH].
  constructor; [|now apply IH].
  intros Hin. apply Hnotin. apply in_map_iff in Hin.
  destruct Hin as [c' [Hn Hc]]. apply filter_In in Hc.
  apply in_map_iff. exists c'. tauto.
Qed.

Lemma NoDup_without (l : string) (idx : Index) :
  NoDup idx -> NoDup (without l idx).
Proof. apply NoDup_filter. Qed.

End IndexFacts.

(** ** Schema classification *)

Section SchemaFacts.
Variable df : DataFrame.
Variable target : string.

Lemma num_features_Ok :
  num_features df target = Ok (without target (all_num df)).
Proof.
  unfold num_features. destruct (contains (all_num df) target) eqn:E.
  - apply drop_Ok. now apply contains_In.
  - f_equal. symmetry. apply without_not_In. now apply contains_false.
Qed.

Lemma cat_features_Ok :
  cat_features df target = Ok (without target (all_cat df)).
Proof.
  unfold cat_features. destruct (contains (all_cat df) target) eqn:E.
  - apply drop_Ok. now apply contains_In.
  - f_equal. symmetry. apply without_not_In. now apply contains_false.
Qed.

Lemma num_for_class_Ok :
  num_for_class df target = Ok (without target (all_num df)).
Proof. exact num_features_Ok. Qed.

Lemma In_all_num (l : string) :
  In l (all_num df) <->
  exists c, In c df /\ name c = l /\
            (dt c = Int64 \/ dt c = Float64 \/ dt c = UInt64).
Proof.
  unfold all_num. rewrite In_columns_select.
  split; intros [c [Hc [Hn Hs]]]; exists c; repeat split; trivial.
  - simpl in Hs. destruct (dt c); simpl in Hs; try discriminate; auto.
  - simpl. destruct Hs as [-> | [-> | ->]]; reflexivity.
Qed.

Lemma In_all_cat (l : string) :
  In l (all_cat df) <->
  exists c, In c df /\ name c = l /\ (dt c = Object \/ dt c = Category).
Proof.
  unfold all_cat. rewrite In_columns_select.
  split; intros [c [Hc [Hn Hs]]]; exists c; repeat split; trivial.
  - simpl in Hs. destruct (dt c); simpl in Hs; try discriminate; auto.
  - simpl. destruct Hs as [-> | ->]; reflexivity.
Qed.

Lemma all_num_all_cat_disjoint (l : string) :
  NoDup (columns df) -> In l (all_num df) -> ~ In l (all_cat df).
Proof.
  intros Hnd Hn Hc. apply In_all_num in Hn. apply In_all_cat in Hc.
  destruct Hn as [c1 [Hin1 [Hn1 Hd1]]], Hc as [c2 [Hin2 [Hn2 Hd2]]].
  assert (c1 = c2) as ->
      by (apply NoDup_columns_inj with (df := df); congruence).
  destruct Hd1 as [H | [H | H]], Hd2 as [H' | H']; congruence.
Qed.

End SchemaFacts.

(** C2.  For a dataset with unique column names and any target, the
    classification does not raise, no column is both a numeric and a
    categorical feature, and the target is in neither set. *)
Theorem classify_partition (df : DataFrame) (target : string) :
  NoDup (columns df) ->
  exists nf cf,
    num_features df target = Ok nf /\
    cat_features df target = Ok cf /\
    (forall f, In f nf -> ~ In f cf) /\
    ~ In target nf /\ ~ In target cf.
Proof.
  intros Hnd.
  exists (without target (all_num df)), (without target (all_cat df)).
  split; [apply num_features_Ok|]. split; [apply cat_features_Ok|].
  repeat split.
  - intros f Hf Hc. apply In_without in Hf. apply In_without in Hc.
    now apply (all_num_all_cat_disjoint df f Hnd).
  - intros H. apply In_without in H. now destruct H.
  - intros H. apply In_without in H. now destruct H.
Qed.

Lemma NoDup_columns_churn : NoDup (columns Samples.churn).
Proof.
  repeat constructor; simpl; intuition discriminate.
Defined.

Lemma NoDup_columns_visits : NoDup (columns Samples.visits).
Proof.
  repeat constructor; simpl; intuition discriminate.
Defined.

Lemma classify_partition_churn :
  exists nf cf,
    num_features Samples.churn "churned" = Ok nf /\
    cat_features Samples.churn "churned" = Ok cf /\
    (forall f, In f nf -> ~ In f cf) /\
    ~ In "churned"%string nf /\ ~ In "churned"%string cf.
Proof.
  apply (classify_partition Samples.churn "churned" NoDup_columns_churn).
Defined.

(** The churn scenario: a categorical target, [age] and [income] as the
    numeric features and [city] as the categorical one. *)
Example classify_churn :
  is_target_categorical Samples.churn "churned" = Ok true /\
  num_features Samples.churn "churned" = Ok ["age"; "income"]%string /\
  cat_features Samples.churn "churned" = Ok ["city"]%string.
Proof. repeat split. Qed.

(** C10.  The crosstab feature list is the object and category columns
    without the target when the target is one of them; for a target of
    any other dtype [Index.drop] raises [KeyError], also when that dtype
    is not numeric and the script is in its categorical branch. *)
Theorem cat_for_class_defined (df : DataFrame) (target : string)
    (c : column) :
  NoDup (columns df) ->
  getitem df target = Ok c ->
  is_target_categorical df target = Ok (negb (is_numeric_dtype (dt c))) /\
  (dt c = Object \/ dt c = Category ->
   cat_for_class df target = Ok (without target (all_cat df))) /\
  (dt c <> Object -> dt c <> Category ->
   cat_for_class df target = Raise (KeyError target) /\
   forall w,
     class_behaviour df target w = ([], Failed (KeyError target))).
Proof.
  intros Hnd Hget. destruct (getitem_Ok_In _ _ _ Hget) as [Hin Hname].
  split; [|split].
  - unfold is_target_categorical, is_target_numeric. now rewrite Hget.
  - intros Hd. unfold cat_for_class. apply drop_Ok.
    apply (In_all_cat df target). now exists c.
  - intros H1 H2.
    assert (cat_for_class df target = Raise (KeyError target)) as Hraise.
    { unfold cat_for_class. apply drop_Raise.
      intros Hc. apply (In_all_cat df target) in Hc.
      destruct Hc as [c' [Hin' [Hname' Hd]]].
      assert (c' = c) as ->
          by (apply NoDup_columns_inj with (df := df); congruence).
      destruct Hd; contradiction. }
    split; [exact Hraise|]. intros w.
    unfold class_behaviour. now rewrite Hraise.
Qed.

Lemma cat_for_class_datetime_target :
  is_target_categorical Samples.visits "when" = Ok true /\
  cat_for_class Samples.visits "when" = Raise (KeyError "when").
Proof.
  destruct (cat_for_class_defined Samples.visits "when"
              (mkColumn "when" Datetime64 [NaN; NaN; NaN])
              NoDup_columns_visits eq_refl) as [H1 [_ H3]].
  split; [exact H1|]. apply H3; discriminate.
Defined.

(** On the churn sample, whose target is a category, the list is the
    one other category column. *)
Example cat_for_class_churn :
  cat_for_class Samples.churn "churned" = Ok ["city"].
Proof. reflexivity. Qed.

(** ** Sorting *)

Section SortFacts.
Context {A : Type} (leb : A -> A -> bool).

Lemma insert_Permutation (x : A) (l : list A) :
  Permutation (insert leb x l) (x :: l).
Proof.
  induction l as [|y l IH]; simpl; [reflexivity|].
  destruct (leb x y); [reflexivity|].
  rewrite IH. apply perm_swap.
Qed.

Lemma sort_Permutation (l : list A) : Permutation (sort leb l) l.
Proof.
  induction l as [|x l IH]; simpl; [reflexivity|].
  rewrite insert_Permutation. now constructor.
Qed.

Lemma sort_In (x : A) (l : list A) : In x (sort leb l) <-> In x l.
Proof.
  split; apply Permutation_in;
    [|apply Permutation_sym]; apply sort_Permutation.
Qed.

Lemma sort_length (l : list A) : length (sort leb l) = length l.
Proof. apply Permutation_length, sort_Permutation. Qed.

Hypothesis leb_total : forall a b, leb a b = true \/ leb b a = true.

Lemma insert_HdRel (a x : A) (l : list A) :
  leb a x = true ->
  HdRel (fun a b => leb a b = true) a l ->
  HdRel (fun a b => leb a b = true) a (insert leb x l).
Proof.
  intros Hax Hal. destruct l as [|y l]; simpl.
  - now constructor.
  - destruct (leb x y); constructor; [assumption|].
    now inversion Hal.
Qed.

Lemma insert_Sorted (x : A) (l : list A) :
  Sorted (fun a b => leb a b = true) l ->
  Sorted (fun a b => leb a b = true) (insert leb x l).
Proof.
  induction 1 as [|y l Hs IH Hhd]; simpl.
  - repeat constructor.
  - destruct (leb x y) eqn:E.
    + constructor; [now constructor|]. now constructor.
    + constructor; [assumption|]. apply insert_HdRel; [|assumption].
      destruct (leb_total x y); congruence.
Qed.

Lemma sort_Sorted (l : list A) :
  Sorted (fun a b => leb a b = true) (sort leb l).
Proof.
  induction l as [|x l IH]; simpl; [constructor|].
  now apply insert_Sorted.
Qed.

Hypothesis leb_trans :
  forall a b c, leb a b = true -> leb b c = true -> leb a c = true.

Lemma sort_StronglySorted (l : list A) :
  StronglySorted (fun a b => leb a b = true) (sort leb l).
Proof.
  apply Sorted_StronglySorted; [|apply sort_Sorted].
  intros a b c. apply leb_trans.
Qed.

End SortFacts.

Section OrderFacts.

Lemma Rleb_le (x y : R) : Rleb x y = true <-> (x <= y)%R.
Proof. unfold Rleb. destruct (Rle_dec x y); split; auto; discriminate. Qed.


Lemma Rleb_total (x y : R) : Rleb x y = true \/ Rleb y x = true.
Proof. rewrite !Rleb_le. lra. Qed.

Lemma Rleb_trans (x y z : R) :
  Rleb x y = true -> Rleb y z = true -> Rleb x z = true.
Proof. rewrite !Rleb_le. lra. Qed.


Lemma ascending_trans (a b c : option R) :
  ascending a b = true -> ascending b c = true -> ascending a c = true.
Proof.
  destruct a, b, c; simpl; try discriminate; auto. apply Rleb_trans.
Qed.

Lemma descending_total (a b : option R) :
  descending a b = true \/ descending b a = true.
Proof. destruct a, b; simpl; auto using Rleb_total. Qed.

Lemma descending_trans (a b c : option R) :
  descending a b = true -> descending b c = true -> descending a c = true.
Proof.
  destruct a, b, c; simpl; try discriminate; auto.
  intros H1 H2. now apply Rleb_trans with r0.
Qed.

End OrderFacts.

(** ** Sums of reals *)

Section SumFacts.
Local Open Scope R_scope.

Lemma sum_nonneg (l : list R) :
  (forall x, In x l -> 0 <= x) -> 0 <= sum l.
Proof.
  induction l as [|x l IH]; simpl; intros H; [lra|].
  assert (0 <= x) by (apply H; now left).
  assert (0 <= sum l) by (apply IH; intros; apply H; now right).
  lra.
Qed.

Lemma sum_zero_terms (l : list R) :
  (forall x, In x l -> 0 <= x) -> sum l = 0 -> forall x, In x l -> x = 0.
Proof.
  induction l as [|y l IH]; simpl; intros Hpos Hsum x Hin; [tauto|].
  assert (0 <= y) by (apply Hpos; now left).
  assert (0 <= sum l) by (apply sum_nonneg; intros; apply Hpos; now right).
  destruct Hin as [<-|Hin]; [lra|].
  apply IH; trivial; [intros; apply Hpos; now right | lra].
Qed.


Lemma ssqdm_nonneg (xs : list R) : 0 <= ssqdm xs.
Proof.
  unfold ssqdm. apply sum_nonneg. intros x Hin.
  apply in_map_iff in Hin. destruct Hin as [y [<- _]]. apply Rle_0_sqr.
Qed.

Lemma ssqdm_zero_constant (xs : list R) (x : R) :
  ssqdm xs = 0 -> In x xs -> x = mean xs.
Proof.
  intros Hz Hin.
  assert ((x - mean xs) * (x - mean xs) = 0) as H.
  { apply sum_zero_terms
      with (l := map (fun x => (x - mean xs) * (x - mean xs)) xs).
    - intros y Hy. apply in_map_iff in Hy. destruct Hy as [z [<- _]].
      apply Rle_0_sqr.
    - exact Hz.
    - apply in_map_iff. now exists x. }
  apply Rmult_integral in H. lra.
Qed.

(** The quadratic [t -> sum (a t + b)^2] is non-negative. *)
Lemma quadratic_nonneg (l : list (R * R)) (t : R) :
  0 <= sum (map (fun p => fst p * fst p) l) * (t * t)
       + 2 * sum (map (fun p => fst p * snd p) l) * t
       + sum (map (fun p => snd p * snd p) l).
Proof.
  induction l as [|[a b] l IH]; simpl; [lra|].
  pose proof (Rle_0_sqr (a * t + b)) as Hsq. unfold Rsqr in Hsq.
  nra.
Qed.

(** Cauchy-Schwarz for finite sums. *)
Lemma cauchy_schwarz (l : list (R * R)) :
  sum (map (fun p => fst p * snd p) l) * sum (map (fun p => fst p * snd p) l)
  <= sum (map (fun p => fst p * fst p) l)
     * sum (map (fun p => snd p * snd p) l).
Proof.
  pose proof (quadratic_nonneg l) as Hq.
  set (A := sum (map (fun p => fst p * fst p) l)) in *.
  set (B := sum (map (fun p => fst p * snd p) l)) in *.
  set (C := sum (map (fun p => snd p * snd p) l)) in *.
  assert (0 <= A) as HA.
  { apply sum_nonneg. intros x Hx. apply in_map_iff in Hx.
    destruct Hx as [p [<- _]]. apply Rle_0_sqr. }
  destruct (Req_dec_T A 0) as [HA0|HA0].
  - destruct (Req_dec_T B 0) as [HB0|HB0]; [rewrite HA0, HB0; lra|].
    exfalso. specialize (Hq (- (C + 1) / (2 * B))).
    rewrite HA0 in Hq.
    replace (0 * (- (C + 1) / (2 * B) * (- (C + 1) / (2 * B)))
             + 2 * B * (- (C + 1) / (2 * B)) + C) with (-1) in Hq
      by (field; assumption).
    lra.
  - specialize (Hq (- B / A)).
    replace (A * (- B / A * (- B / A)) + 2 * B * (- B / A) + C)
      with (C - B * B / A) in Hq by (field; assumption).
    assert (B * B = B * B / A * A) as HBB by (field; assumption).
    rewrite HBB. nra.
Qed.

End SumFacts.

(** ** Pearson's coefficient in exact arithmetic *)

Section PearsonFacts.
Local Open Scope R_scope.


Lemma complete_pairs_diag (xs : list cell) :
  complete_pairs xs xs = map (fun x => (x, x)) (dropna xs).
Proof.
  induction xs as [|x xs IH]; simpl; trivial.
  destruct (to_num x); simpl; now rewrite IH.
Qed.

Lemma In_dropna (x : R) (cs : list cell) : In x (dropna cs) <-> In (Num x) cs.
Proof.
  induction cs as [|c cs IH]; simpl; [tauto|].
  destruct c as [|y|s]; simpl; rewrite IH; split; intros H.
  - now right.
  - destruct H as [H|H]; [discriminate | assumption].
  - destruct H as [->|H]; auto.
  - destruct H as [[= ->]|H]; auto.
  - now right.
  - destruct H as [H|H]; [discriminate | assumption].
Qed.


(** The coefficient, when defined, is the covariance sum over a positive
    divisor whose square bounds the square of the covariance sum. *)
Lemma pearson_Some (xs ys : list cell) (v : R) :
  pearson xs ys = Some v ->
  exists b d, v = b / d /\ 0 < d /\ b * b <= d * d.
Proof.
  unfold pearson. set (ps := complete_pairs xs ys).
  destruct (length ps <? 1)%nat; [discriminate|].
  set (mx := mean (map fst ps)). set (my := mean (map snd ps)).
  destruct (Req_dec_T _ 0) as [|Hd]; [discriminate|]. intros [= <-].
  set (b := sum (map (fun p => (fst p - mx) * (snd p - my)) ps)).
  set (d := sqrt (ssqdm (map fst ps) * ssqdm (map snd ps))) in *.
  exists b, d. split; [reflexivity|].
  pose proof (ssqdm_nonneg (map fst ps)) as Hx.
  pose proof (ssqdm_nonneg (map snd ps)) as Hy.
  assert (0 <= d) as Hd0 by apply sqrt_pos.
  split; [lra|].
  unfold d. rewrite sqrt_sqrt by now apply Rmult_le_pos.
  pose proof (cauchy_schwarz (map (fun p => (fst p - mx, snd p - my)) ps))
    as Hcs.
  rewrite !map_map in Hcs. cbn [fst snd] in Hcs.
  unfold ssqdm. rewrite !map_map. exact Hcs.
Qed.

Lemma pearson_bounded (xs ys : list cell) (v : R) :
  pearson xs ys = Some v -> -1 <= v <= 1.
Proof.
  intros H. destruct (pearson_Some _ _ _ H) as [b [d [-> [Hd Hle]]]].
  assert (Rabs b <= Rabs d) as Habs by now apply Rsqr_le_abs_0.
  rewrite (Rabs_pos_eq d) in Habs by lra.
  assert (- d <= b <= d) as Hb
      by (unfold Rabs in Habs; destruct (Rcase_abs b); lra).
  assert (0 < / d) as Hinv by now apply Rinv_0_lt_compat.
  assert (d * / d = 1) as Hone by (field; lra).
  unfold Rdiv. split; nra.
Qed.

Lemma pearson_diag (xs : list cell) :
  non_constant xs -> pearson xs xs = Some 1.
Proof.
  intros [x [y [Hx [Hy Hne]]]]. apply In_dropna in Hx, Hy.
  unfold pearson. rewrite complete_pairs_diag.
  set (v := dropna xs) in *.
  rewrite length_map, !map_map. cbn [fst snd]. rewrite !map_id.
  destruct v as [|z v'] eqn:Ev; [destruct Hx|]. rewrite <- Ev in *.
  replace (length v <? 1)%nat with false
    by (rewrite Ev; reflexivity).
  assert (ssqdm v <> 0) as Hss.
  { intros Hz. apply Hne.
    rewrite (ssqdm_zero_constant v x Hz Hx).
    now rewrite (ssqdm_zero_constant v y Hz Hy). }
  pose proof (ssqdm_nonneg v) as Hpos.
  rewrite sqrt_square by assumption.
  destruct (Req_dec_T (ssqdm v) 0) as [|_]; [contradiction|].
  f_equal. fold (ssqdm v). now field.
Qed.

End PearsonFacts.

(** ** Frames: masking and stacking *)

Section FrameFacts.
Local Open Scope R_scope.







End FrameFacts.

(** ** Column selection *)

Section SelectionFacts.

Lemma getitem_defined (df : DataFrame) (l : string) :
  In l (columns df) -> exists c, getitem df l = Ok c.
Proof.
  induction df as [|c df IH]; simpl; [tauto|].
  intros H. destruct (String.eqb_spec (name c) l) as [Heq|Hne].
  - now exists c.
  - destruct H as [H|H]; [contradiction | now apply IH].
Qed.

Lemma getitems_Ok (df : DataFrame) (labels : Index) :
  (forall l, In l labels -> In l (columns df)) ->
  exists sub,
    getitems df labels = Ok sub /\
    columns sub = labels /\
    (forall l, In l labels -> getitem sub l = getitem df l).
Proof.
  induction labels as [|l rest IH]; intros Hsub.
  - exists []. simpl. repeat split; trivial. intros l [].
  - destruct (getitem_defined df l) as [c Hc]; [apply Hsub; now left|].
    destruct IH as [cs [Hcs [Hcols Hget]]];
      [intros; apply Hsub; now right|].
    exists (c :: cs). simpl. rewrite Hc, Hcs. simpl.
    destruct (getitem_Ok_In _ _ _ Hc) as [_ Hname].
    repeat split.
    + now rewrite Hname, Hcols.
    + intros l' Hl'. destruct (String.eqb_spec (name c) l') as [Heq|Hne].
      * rewrite <- Heq, Hname. now rewrite Hc.
      * destruct Hl' as [<-|Hl']; [contradiction | now apply Hget].
Qed.

Lemma all_num_columns (df : DataFrame) (l : string) :
  In l (all_num df) -> In l (columns df).
Proof.
  intros H. apply In_all_num in H. destruct H as [c [Hc [<- _]]].
  now apply in_map.
Qed.

Lemma NoDup_all_num (df : DataFrame) :
  NoDup (columns df) -> NoDup (all_num df).
Proof. apply NoDup_columns_filter. Qed.

Lemma getitem_select (sel : list selector) (df : DataFrame) (c : column) :
  NoDup (columns df) -> In c df ->
  existsb (fun s => selects s (dt c)) sel = true ->
  getitem (select_dtypes sel df) (name c) = Ok c.
Proof.
  intros Hnd Hin Hsel. apply getitem_In.
  - now apply NoDup_columns_filter.
  - apply filter_In. now split.
Qed.

End SelectionFacts.

Section PearsonSelf.
Local Open Scope R_scope.


End PearsonSelf.

(** ** The risk table on pandas 3 *)

Section KeepNaFacts.
Local Open Scope R_scope.








End KeepNaFacts.



(** ** Coefficients of the sample columns *)

Section PearsonValue.
Local Open Scope R_scope.

Lemma pearson_value (xs ys : list cell) (b d : R) :
  complete_pairs xs ys <> [] ->
  0 < d ->
  d * d = ssqdm (map fst (complete_pairs xs ys))
          * ssqdm (map snd (complete_pairs xs ys)) ->
  b = sum (map (fun p =>
                  (fst p - mean (map fst (complete_pairs xs ys)))
                  * (snd p - mean (map snd (complete_pairs xs ys))))
               (complete_pairs xs ys)) ->
  pearson xs ys = Some (b / d).
Proof.
  intros Hne Hd Hdd Hb. unfold pearson.
  destruct (complete_pairs xs ys) as [|p ps] eqn:E; [contradiction|].
  rewrite <- E in *.
  replace (length (complete_pairs xs ys) <? 1)%nat with false
    by (rewrite E; reflexivity).
  rewrite (sqrt_lem_1 _ d); [| rewrite <- Hdd; nra | lra | exact Hdd].
  destruct (Req_dec_T d 0) as [|_]; [lra|]. now rewrite Hb.
Qed.


End PearsonValue.

Ltac pearson_by_value :=
  apply pearson_value;
  [ discriminate
  | lra
  | cbn [Samples.nums complete_pairs map to_num fst snd];
    unfold ssqdm, mean; cbn [map sum fold_right length INR]; field
  | cbn [Samples.nums complete_pairs map to_num fst snd];
    unfold mean; cbn [map sum fold_right length INR fst snd]; field ].



(** ** The correlation matrix in binary64 *)



(** ** The top-K ranking *)

Section RankingFacts.
Local Open Scope R_scope.

Lemma firstn_In {A : Type} (k : nat) (l : list A) (x : A) :
  In x (firstn k l) -> In x l.
Proof.
  intros H. rewrite <- (firstn_skipn k l). apply in_or_app. now left.
Qed.

Lemma StronglySorted_firstn {A : Type} (P : A -> A -> Prop) (k : nat)
    (l : list A) :
  StronglySorted P l -> StronglySorted P (firstn k l).
Proof.
  intros H. revert k. induction H as [|x l Hs IH Hall]; intros [|k]; simpl;
    try constructor.
  - apply IH.
  - rewrite Forall_forall in *. intros y Hy. apply Hall.
    revert Hy. apply firstn_In.
Qed.

Lemma StronglySorted_after {A : Type} (P : A -> A -> Prop) (x : A)
    (l1 l2 : list A) :
  StronglySorted P (l1 ++ x :: l2) -> Forall (P x) l2.
Proof.
  induction l1 as [|y l1 IH]; simpl; intros H;
    apply StronglySorted_inv in H; destruct H as [Hs Hall];
    [exact Hall | now apply IH].
Qed.

Lemma filter_map_key {V : Type} (g : string -> V) (label : string)
    (idx : Index) :
  filter (fun e => negb (String.eqb (fst e) label))
         (map (fun r => (r, g r)) idx)
  = map (fun r => (r, g r)) (without label idx).
Proof.
  unfold without. induction idx as [|x idx IH]; simpl; trivial.
  destruct (negb (String.eqb x label)); simpl; now rewrite IH.
Qed.

Lemma getitem_select_eq (sel : list selector) (df : DataFrame)
    (l : string) :
  NoDup (columns df) -> In l (columns (select_dtypes sel df)) ->
  getitem (select_dtypes sel df) l = getitem df l.
Proof.
  intros Hnd Hin. apply In_columns_select in Hin.
  destruct Hin as [c [Hc [<- Hs]]].
  rewrite (getitem_In df c Hnd Hc). now apply getitem_select.
Qed.

(** The series the ranking sorts: one entry for each [int64] or
    [float64] column other than the target. *)
Lemma corr_Ok (df : DataFrame) (target : string) (ct : column) (k : nat) :
  NoDup (columns df) ->
  getitem df target = Ok ct ->
  dt ct = Int64 \/ dt ct = Float64 ->
  corr df target k
  = Ok (head k (sort_values false
         (map (fun f =>
                 (f, match getitem df f with
                     | Ok cf => pearson (values cf) (values ct)
                     | Raise _ => None
                     end))
              (without target
                 (columns (select_dtypes [int64; float64] df)))))).
Proof.
  intros Hnd Hget Hdt. unfold corr, frame_getitem, series_drop.
  set (sel := select_dtypes [int64; float64] df).
  destruct (getitem_Ok_In _ _ _ Hget) as [Hin Hname].
  assert (In target (columns sel)) as Ht.
  { apply In_columns_select. exists ct. repeat split; trivial.
    destruct Hdt as [-> | ->]; reflexivity. }
  cbn [Pandas.corr cols index at_ bind].
  replace (contains (columns sel) target) with true
    by (symmetry; now apply contains_In).
  cbn [bind]. rewrite map_map. cbn [fst]. rewrite map_id.
  replace (contains (columns sel) target) with true
    by (symmetry; now apply contains_In).
  cbn [bind]. rewrite filter_map_key. do 3 f_equal.
  apply map_ext_in. intros f Hf. apply In_without in Hf.
  destruct Hf as [Hf _]. f_equal.
  unfold sel. rewrite !getitem_select_eq by assumption.
  rewrite Hget. destruct (getitem df f); reflexivity.
Qed.

End RankingFacts.

(** A ranking that is returned is in descending order of the signed
    coefficient, undefined coefficients last; so a feature with
    coefficient +0.5 is never listed after one with coefficient -0.95.
    On an [int64] or [float64] target, when the ranked features are [f]
    with coefficient -0.95 and [g] with coefficient +0.5, the ranking
    opens with [g]: it is the whole answer for k = 1 and precedes [f]
    for any larger k. *)
Theorem corr_signed_descending (df : DataFrame) (target : string) :
  (forall k r,
      corr df target k = Ok r ->
      StronglySorted (fun a b => descending (snd a) (snd b) = true) r) /\
  (forall k r f g before after,
      corr df target k = Ok r ->
      r = before ++ (f, Some (-0.95)%R) :: after ->
      ~ In (g, Some 0.5%R) after) /\
  (forall f g ct cf cg,
      NoDup (columns df) ->
      getitem df target = Ok ct ->
      dt ct = Int64 \/ dt ct = Float64 ->
      Permutation
        (without target (columns (select_dtypes [int64; float64] df)))
        [f; g] ->
      getitem df f = Ok cf ->
      getitem df g = Ok cg ->
      pearson (values cf) (values ct) = Some (-0.95)%R ->
      pearson (values cg) (values ct) = Some 0.5%R ->
      corr df target 1 = Ok [(g, Some 0.5%R)] /\
      forall k, (2 <= k)%nat ->
        corr df target k = Ok [(g, Some 0.5%R); (f, Some (-0.95)%R)]).
Proof.
  assert (forall k r,
             corr df target k = Ok r ->
             StronglySorted
               (fun a b => descending (snd a) (snd b) = true) r) as Hsorted.
  { intros k r. unfold corr.
    destruct (frame_getitem _ _) as [s|]; [|discriminate]. cbn [bind].
    destruct (series_drop s target) as [s'|]; [|discriminate]. cbn [bind].
    intros [= <-]. apply StronglySorted_firstn.
    unfold sort_values. apply sort_StronglySorted.
    - intros a b. apply descending_total.
    - intros a b c. apply descending_trans. }
  split; [exact Hsorted|]. split.
  - intros k r f g before after Hr -> Hin.
    apply Hsorted, StronglySorted_after in Hr.
    rewrite Forall_forall in Hr. specialize (Hr _ Hin).
    cbn [snd descending] in Hr. apply Rleb_le in Hr. lra.
  - intros f g ct cf cg Hnd Hget Hdt Hperm Hf Hg Hpf Hpg.
    assert (forall k,
               corr df target k
               = Ok (head k [(g, Some 0.5%R); (f, Some (-0.95)%R)])) as Hk.
    { intros k. rewrite (corr_Ok df target ct k Hnd Hget Hdt).
      assert (Rleb 0.5 (-0.95) = false) as E1
          by (unfold Rleb; destruct (Rle_dec 0.5 (-0.95)); trivial; lra).
      assert (Rleb (-0.95) 0.5 = true) as E2 by (apply Rleb_le; lra).
      apply Permutation_sym, Permutation_length_2_inv in Hperm.
      destruct Hperm as [-> | ->]; cbn [map]; rewrite Hf, Hg, Hpf, Hpg;
        unfold sort_values; cbn [sort insert descending snd];
        rewrite ?E1, ?E2; reflexivity. }
    split; [apply Hk|]. intros k Hle. rewrite Hk.
    unfold head. now rewrite firstn_all2.
Qed.

Lemma NoDup_columns_slopes : NoDup (columns Samples.slopes).
Proof.
  repeat constructor; simpl; intuition discriminate.
Defined.

Lemma pearson_slopes_drag :
  pearson (Samples.nums [-19; 19; 2; 5; -7]%R)
          (Samples.nums [1; -1; 0; 0; 0]%R)
  = Some (-0.95)%R.
Proof.
  replace (-0.95)%R with (-38 / 40)%R by lra. pearson_by_value.
Qed.

Lemma pearson_slopes_lift :
  pearson (Samples.nums [1; 0; -1; 0; 0]%R)
          (Samples.nums [1; -1; 0; 0; 0]%R)
  = Some 0.5%R.
Proof.
  replace 0.5%R with (1 / 2)%R by lra. pearson_by_value.
Qed.

Lemma corr_signed_descending_slopes :
  corr Samples.slopes "yield" 1 = Ok [("lift", Some 0.5%R)].
Proof.
  destruct (corr_signed_descending Samples.slopes "yield") as [_ [_ H]].
  destruct (H "drag" "lift"
              (mkColumn "yield" Float64 (Samples.nums [1; -1; 0; 0; 0]%R))
              (mkColumn "drag" Float64
                 (Samples.nums [-19; 19; 2; 5; -7]%R))
              (mkColumn "lift" Float64 (Samples.nums [1; 0; -1; 0; 0]%R))
              NoDup_columns_slopes eq_refl (or_intror eq_refl)
              (Permutation_refl _) eq_refl eq_refl
              pearson_slopes_drag pearson_slopes_lift) as [H1 _].
  exact H1.
Defined.

(** ** Which columns the ranking covers *)

Section RankingCoverage.

Lemma select_int64_float64_all_num (df : DataFrame) :
  (forall c, In c df -> dt c <> UInt64) ->
  columns (select_dtypes [int64; float64] df) = all_num df.
Proof.
  intros H. unfold all_num, select_dtypes. f_equal.
  apply filter_ext_in. intros c Hc. specialize (H c Hc).
  destruct (dt c); simpl; trivial. contradiction.
Qed.

Lemma NoDup_firstn {A : Type} (k : nat) (l : list A) :
  NoDup l -> NoDup (firstn k l).
Proof.
  intros H. rewrite <- (firstn_skipn k l) in H.
  now apply NoDup_app_remove_r in H.
Qed.

(** On frames whose numeric columns are all [int64] or [float64], target
    included, the ranking has one row for each classified numeric
    feature, cut to the first [k]. *)
Lemma corr_ranks_numeric_features (df : DataFrame) (target : string)
    (ct : column) (nf : Index) (k : nat) :
  NoDup (columns df) ->
  getitem df target = Ok ct ->
  dt ct = Int64 \/ dt ct = Float64 ->
  (forall c, In c df -> dt c <> UInt64) ->
  num_features df target = Ok nf ->
  exists r,
    corr df target k = Ok r /\
    length r = Nat.min k (length nf) /\
    NoDup (map fst r) /\
    (forall f, In f (map fst r) -> In f nf) /\
    (length nf <= k -> Permutation (map fst r) nf).
Proof.
  intros Hnd Hget Hdt Hno Hnf.
  rewrite num_features_Ok in Hnf. injection Hnf as <-.
  rewrite (corr_Ok df target ct k Hnd Hget Hdt).
  rewrite (select_int64_float64_all_num df Hno).
  set (s := map _ (without target (all_num df))).
  assert (map fst s = without target (all_num df)) as Hkeys
      by (unfold s; rewrite map_map; apply map_id).
  assert (Permutation (map fst (sort_values false s))
                      (without target (all_num df))) as Hperm.
  { rewrite <- Hkeys. apply Permutation_map. apply sort_Permutation. }
  eexists. split; [reflexivity|]. unfold head. repeat split.
  - rewrite length_firstn. unfold sort_values. rewrite sort_length.
    unfold s. now rewrite length_map.
  - rewrite <- firstn_map. apply NoDup_firstn.
    apply (Permutation_NoDup (Permutation_sym Hperm)).
    now apply NoDup_without, NoDup_all_num.
  - intros f Hf. rewrite <- firstn_map in Hf. apply firstn_In in Hf.
    now apply (Permutation_in _ Hperm).
  - intros Hle. rewrite firstn_all2; [exact Hperm|].
    unfold sort_values. rewrite sort_length. unfold s.
    now rewrite length_map.
Qed.

End RankingCoverage.

(** C4 (where the script departs from it).  On the ledger the
    classifier counts two numeric features, [units] and the [uint64]
    column [account], yet the ranking for k = 5 has the single row of
    [units]: its [select_dtypes] keeps [int64] and [float64] only. *)
Lemma corr_skips_uint64_feature :
  is_target_numeric Samples.ledger "revenue" = Ok true /\
  num_features Samples.ledger "revenue" = Ok ["units"; "account"] /\
  exists r,
    corr Samples.ledger "revenue" 5 = Ok r /\
    map fst r = ["units"] /\
    length r <> Nat.min 5 2.
Proof.
  split; [reflexivity|]. split; [reflexivity|].
  eexists. split; [reflexivity|]. split; [reflexivity | discriminate].
Qed.

(** The same selection makes the ranking raise for a target the script
    takes as numeric but that is not [int64] or [float64]. *)
Example corr_raises_on_bool_target :
  is_target_numeric Samples.ledger "paid" = Ok true /\
  corr Samples.ledger "paid" 5 = Raise (KeyError "paid").
Proof. split; reflexivity. Qed.

Lemma pearson_alarms_load :
  pearson (Samples.nums [0; 1; 2; 2; 3; -6]%R)
          (Samples.nums [0; 0; 0; 0; 0; 1]%R)
  = Some (-0.95)%R.
Proof.
  replace (-0.95)%R with ((-19 / 3) / (20 / 3))%R by lra. pearson_by_value.
Qed.

Lemma pearson_alarms_gain :
  pearson (Samples.nums [-6; -5; -4; -3; -2; -2]%R)
          (Samples.nums [0; 0; 0; 0; 0; 1]%R)
  = Some 0.5%R.
Proof.
  replace 0.5%R with ((5 / 3) / (10 / 3))%R by lra. pearson_by_value.
Qed.

(** C3 (where the script departs from it).  The alarms have a boolean
    target, which the script takes as numeric, and two numeric features
    whose coefficients against it are -0.95 and +0.5.  The request with
    k = 1 does not return the +0.5 feature: the ranking's
    [select_dtypes] keeps [int64] and [float64] only, the target is not
    among the columns it correlates, and [KeyError] is raised. *)
Lemma corr_raises_in_signed_scenario :
  is_target_numeric Samples.alarms "tripped" = Ok true /\
  num_features Samples.alarms "tripped" = Ok ["load"; "gain"] /\
  (exists load gain tripped,
      getitem Samples.alarms "load" = Ok load /\
      getitem Samples.alarms "gain" = Ok gain /\
      getitem Samples.alarms "tripped" = Ok tripped /\
      pearson (values load) (values tripped) = Some (-0.95)%R /\
      pearson (values gain) (values tripped) = Some 0.5%R) /\
  corr Samples.alarms "tripped" 1 = Raise (KeyError "tripped") /\
  forall k, corr Samples.alarms "tripped" k <> Ok [("gain", Some 0.5%R)].
Proof.
  split; [reflexivity|]. split; [reflexivity|]. split.
  - do 3 eexists. split; [reflexivity|]. split; [reflexivity|].
    split; [reflexivity|]. cbn [values].
    split; [exact pearson_alarms_load | exact pearson_alarms_gain].
  - split; [reflexivity|]. intros k. discriminate.
Qed.

(** ** Running pieces of the script *)

Section ScriptFacts.

Lemma seq_eval_Ok {A B : Type} (a : A) (k : A -> script B) :
  seq (eval (Ok a)) k = k a.
Proof. cbn [eval seq]. now destruct (k a). Qed.

Lemma seq_eval_Raise {A B : Type} (e : exn) (k : A -> script B) :
  seq (eval (Raise e)) k = ([], Failed e).
Proof. reflexivity. Qed.

Lemma seq_render {B : Type} (e : element) (k : unit -> script B) :
  seq (render e) k = (e :: fst (k tt), snd (k tt)).
Proof. cbn [render seq]. now destruct (k tt). Qed.

End ScriptFacts.

(** ** Too few numeric features *)

Section FewFeatures.
Variable df : DataFrame.
Variable target : string.
Variable nf : Index.
Hypothesis Hnf : num_features df target = Ok nf.
Hypothesis Hlen : (length nf < 2)%nat.

Lemma multicollinearity_risks_info :
  multicollinearity_risks df target
  = ([info "Not enough numerical features for correlation analysis."],
     Done tt).
Proof.
  unfold multicollinearity_risks. rewrite Hnf. cbn [eval seq].
  replace (length nf <? 2)%nat with true
    by (symmetry; now apply Nat.ltb_lt).
  reflexivity.
Qed.

(** With at most one option both select boxes show the same feature and
    the redundancy check is skipped. *)
Lemma redundancy_check_skipped (w : widgets) :
  redundancy_check df target w = ret tt.
Proof.
  unfold redundancy_check. rewrite Hnf, seq_eval_Ok. cbv zeta.
  destruct nf as [|x [|y rest]]; [reflexivity | | simpl in Hlen; lia].
  assert (forall pick, selectbox [x] pick = Some x) as Hsel.
  { intros [p|]; [|reflexivity]. unfold selectbox, contains. simpl.
    destruct (String.eqb_spec p x) as [->|]; reflexivity. }
  rewrite !Hsel. cbn [option_eqb]. now rewrite String.eqb_refl.
Qed.

End FewFeatures.

(** C8.  With fewer than two numeric features the risk section renders
    the information message, not a table (so not an empty table), and
    ends normally: whatever the script does next runs as it would have,
    its elements following the message and its outcome being the outcome
    of the whole. *)
Theorem insufficient_features_signal (df : DataFrame) (target : string)
    (nf : Index) :
  num_features df target = Ok nf ->
  (length nf < 2)%nat ->
  multicollinearity_risks df target
  = ([info "Not enough numerical features for correlation analysis."],
     Done tt) /\
  multicollinearity_risks df target <> ([dataframe []], Done tt) /\
  (forall (A : Type) (rest : unit -> script A),
      seq (multicollinearity_risks df target) rest
      = (info "Not enough numerical features for correlation analysis."
           :: fst (rest tt),
         snd (rest tt))).
Proof.
  intros Hnf Hlen.
  pose proof (multicollinearity_risks_info df target nf Hnf Hlen) as Hrun.
  assert (forall (A : Type) (rest : unit -> script A),
             seq (multicollinearity_risks df target) rest
             = (info "Not enough numerical features for correlation analysis."
                  :: fst (rest tt),
                snd (rest tt))) as Hseq.
  { intros A rest. rewrite Hrun. cbn [seq].
    destruct (rest tt) as [out o]. reflexivity. }
  split; [exact Hrun|]. split; [rewrite Hrun; discriminate|].
  exact Hseq.
Qed.

Lemma insufficient_features_signal_churn :
  multicollinearity_risks Samples.churn "income"
  = ([info "Not enough numerical features for correlation analysis."],
     Done tt).
Proof.
  apply (insufficient_features_signal Samples.churn "income" ["age"]
           eq_refl (le_n 2)).
Defined.

(** ** Grouping *)

Section GroupFacts.

Lemma get_group_add (c k : string) (v : cell)
    (gs : list (string * list cell)) :
  get_group c (add_to_group k v gs)
  = if String.eqb c k then v :: get_group k gs else get_group c gs.
Proof.
  induction gs as [|[k' vs] gs IH]; simpl.
  - destruct (String.eqb c k); reflexivity.
  - destruct (String.eqb_spec k k') as [<-|Hne]; simpl.
    + destruct (String.eqb c k); reflexivity.
    + destruct (String.eqb_spec c k') as [->|Hne'].
      * destruct (String.eqb_spec k' k); [congruence | reflexivity].
      * exact IH.
Qed.

Lemma keys_add (c k : string) (v : cell) (gs : list (string * list cell)) :
  In c (map fst (add_to_group k v gs)) <-> c = k \/ In c (map fst gs).
Proof.
  induction gs as [|[k' vs] gs IH]; simpl.
  - intuition.
  - destruct (String.eqb_spec k k') as [<-|Hne]; simpl.
    + intuition.
    + rewrite IH. intuition.
Qed.

Lemma NoDup_keys_add (k : string) (v : cell)
    (gs : list (string * list cell)) :
  NoDup (map fst gs) -> NoDup (map fst (add_to_group k v gs)).
Proof.
  induction gs as [|[k' vs] gs IH]; simpl; intros Hnd.
  - repeat constructor. simpl. tauto.
  - inversion Hnd as [|? ? Hnotin Hnd']; subst.
    destruct (String.eqb_spec k k') as [<-|Hne]; simpl.
    + now constructor.
    + constructor; [|now apply IH].
      rewrite keys_add. intros [->|H]; [congruence | contradiction].
Qed.

Lemma get_group_In (c : string) (g : list cell)
    (gs : list (string * list cell)) :
  NoDup (map fst gs) -> In (c, g) gs -> get_group c gs = g.
Proof.
  induction gs as [|[k vs] gs IH]; simpl; intros Hnd Hin; [tauto|].
  inversion Hnd as [|? ? Hnotin Hnd']; subst.
  destruct Hin as [[= -> ->]|Hin].
  - now rewrite String.eqb_refl.
  - destruct (String.eqb_spec c k) as [->|Hne]; [|now apply IH].
    exfalso. apply Hnotin. apply in_map_iff. now exists (k, g).
Qed.

Lemma get_group_split (c : string) (keys vals : list cell) :
  get_group c (split_groups keys vals) = rows_labelled c keys vals.
Proof.
  revert vals. induction keys as [|k keys IH]; intros [|v vals]; simpl;
    trivial.
  destruct (to_label k) as [s|]; [|apply IH].
  rewrite get_group_add.
  destruct (String.eqb_spec c s) as [->|Hne]; now rewrite IH.
Qed.

Lemma keys_split (c : string) (keys vals : list cell) :
  In c (map fst (split_groups keys vals)) <-> rows_labelled c keys vals <> [].
Proof.
  revert vals. induction keys as [|k keys IH]; intros [|v vals]; simpl;
    try tauto.
  destruct (to_label k) as [s|]; [|apply IH].
  rewrite keys_add, IH.
  destruct (String.eqb_spec c s) as [->|Hne]; split; intros H;
    try discriminate; auto.
  destruct H; [contradiction | assumption].
Qed.

Lemma NoDup_keys_split (keys vals : list cell) :
  NoDup (map fst (split_groups keys vals)).
Proof.
  revert vals. induction keys as [|k keys IH]; intros [|v vals]; simpl;
    try constructor.
  destruct (to_label k); [apply NoDup_keys_add|]; apply IH.
Qed.


(** What [groupby] returns: one group for each label that occurs, holding
    the cells of its rows, in ascending order of the labels. *)
Lemma groupby_spec (key val : column) :
  NoDup (map fst (groupby key val)) /\
  (forall c, In c (map fst (groupby key val)) <->
             rows_labelled c (values key) (values val) <> []) /\
  (forall c g, In (c, g) (groupby key val) ->
               g = rows_labelled c (values key) (values val)) /\
  Sorted (fun a b => String.leb (fst a) (fst b) = true) (groupby key val).
Proof.
  unfold groupby.
  set (leb := fun a b : string * list cell => String.leb (fst a) (fst b)).
  set (gs := split_groups (values key) (values val)).
  assert (Permutation (map fst (sort leb gs)) (map fst gs)) as Hperm
      by apply Permutation_map, sort_Permutation.
  repeat split.
  - apply (Permutation_NoDup (Permutation_sym Hperm)).
    apply NoDup_keys_split.
  - intros H. apply (Permutation_in _ Hperm) in H. now apply keys_split.
  - intros H. apply (Permutation_in _ (Permutation_sym Hperm)).
    now apply keys_split.
  - intros c g Hin. apply sort_In in Hin.
    rewrite <- get_group_split. symmetry.
    apply get_group_In; [apply NoDup_keys_split | exact Hin].
  - apply (sort_Sorted leb). intros a b. apply String.leb_total.
Qed.


End GroupFacts.

(** ** Grouped statistics *)

Section StatsFacts.
Variable df : DataFrame.
Variable target f : string.
Variable key val : column.
Hypothesis Hkey : getitem df f = Ok key.
Hypothesis Hval : getitem df target = Ok val.

Lemma stats_Ok :
  stats df target (Some f)
  = Ok (sort (fun a b => ascending (agg_median (snd a)) (agg_median (snd b)))
          (map (fun g => (fst g,
                          mkAgg (median (snd g)) (std (snd g))
                                (count (snd g))))
               (groupby key val))).
Proof. unfold stats. cbn [by_ bind]. now rewrite Hkey, Hval. Qed.

Lemma impact_Ok :
  impact df target (Some f)
  = Ok (sort_values true
          (map (fun g => (fst g, median (snd g))) (groupby key val))).
Proof. unfold impact. cbn [by_ bind]. now rewrite Hkey, Hval. Qed.

Lemma selectbox_In (options : Index) :
  In f options -> selectbox options (Some f) = Some f.
Proof.
  intros Hin. unfold selectbox. destruct options as [|first rest].
  - destruct Hin.
  - apply contains_In in Hin. now rewrite Hin.
Qed.

(** Tab 5 runs to its end when the selected feature is [f]. *)
Lemma tab5_Done (w : widgets) (cf : Index) :
  cat_features df target = Ok cf ->
  selectbox cf (cat_feature w) = Some f ->
  snd (tab5 df target w) = Done tt.
Proof.
  intros Hcf Hsel. unfold tab5. rewrite Hcf, seq_eval_Ok. cbv zeta.
  rewrite Hsel, impact_Ok, stats_Ok.
  rewrite seq_eval_Ok, seq_render. cbn [snd].
  rewrite seq_eval_Ok. reflexivity.
Qed.

End StatsFacts.

Section OrdersValues.
Local Open Scope R_scope.





End OrdersValues.








(** C7.  A category with exactly one target value has a row in the
    stability table with count 1 and no standard deviation, and when
    that feature is the one selected the categorical tab runs to its end
    without an exception. *)
Theorem single_observation_group (df : DataFrame) (target f : string)
    (key val : column) (c : string) :
  getitem df f = Ok key ->
  getitem df target = Ok val ->
  count (rows_labelled c (values key) (values val)) = 1 ->
  (exists s row,
      stats df target (Some f) = Ok s /\
      In (c, row) s /\
      agg_count row = 1 /\
      agg_std row = None) /\
  (forall w cf,
      cat_features df target = Ok cf -> In f cf ->
      cat_feature w = Some f ->
      snd (tab5 df target w) = Done tt).
Proof.
  intros Hkey Hval Hcount. split.
  - set (g := rows_labelled c (values key) (values val)) in *.
    exists (sort (fun a b =>
                    ascending (agg_median (snd a)) (agg_median (snd b)))
              (map (fun g => (fst g,
                              mkAgg (median (snd g)) (std (snd g))
                                    (count (snd g))))
                   (groupby key val))),
           (mkAgg (median g) (std g) (count g)).
    split; [exact (stats_Ok df target f key val Hkey Hval)|].
    destruct (groupby_spec key val) as [_ [Hkeys [Hrows _]]].
    assert (In c (map fst (groupby key val))) as Hin.
    { apply Hkeys. fold g. intros E. rewrite E in Hcount. discriminate. }
    apply in_map_iff in Hin. destruct Hin as [[c' g'] [Hc Hin]].
    cbn [fst] in Hc. subst c'.
    assert (g' = g) as -> by exact (Hrows c g' Hin).
    split; [|split].
    + apply sort_In. apply in_map_iff. now exists (c, g).
    + exact Hcount.
    + cbn [agg_std]. unfold std. fold (count g). now rewrite Hcount.
  - intros w cf Hcf Hin Hw.
    apply (tab5_Done df target f key val Hkey Hval w cf Hcf).
    rewrite Hw. now apply selectbox_In.
Qed.

Lemma single_observation_group_sales :
  (exists s row,
      stats Samples.sales "price" (Some "region") = Ok s /\
      In ("B", row) s /\
      agg_count row = 1 /\
      agg_std row = None) /\
  snd (tab5 Samples.sales "price" (mkWidgets 10 None None (Some "region")))
  = Done tt.
Proof.
  destruct (single_observation_group Samples.sales "price" "region"
              (mkColumn "region" Object
                 (Samples.strs ["A"; "A"; "B"; "A"; "A"; "A"; "A"; "A";
                                "A"; "A"; "A"]))
              (mkColumn "price" Float64
                 (Samples.nums [10; 12; 40; 11; 9; 13; 10; 12; 11; 10;
                                12]%R))
              "B" eq_refl eq_refl eq_refl) as [H1 H2].
  split; [exact H1|].
  apply (H2 (mkWidgets 10 None None (Some "region")) ["region"] eq_refl).
  - now left.
  - reflexivity.
Defined.

(** ** Cross tabulation *)

Section CrosstabFacts.
Local Open Scope R_scope.

Lemma sum_map_div {A : Type} (f : A -> R) (t : R) (l : list A) :
  sum (map (fun c => f c / t) l) = sum (map f l) / t.
Proof.
  induction l as [|a l IH]; simpl; [unfold Rdiv; ring|].
  rewrite IH. unfold Rdiv. ring.
Qed.

Lemma sum_ge_term {A : Type} (f : A -> R) (l : list A) (a : A) :
  (forall x, In x l -> 0 <= f x) -> In a l -> f a <= sum (map f l).
Proof.
  induction l as [|x l IH]; simpl; intros Hpos Hin; [tauto|].
  assert (0 <= f x) by (apply Hpos; now left).
  assert (0 <= sum (map f l)).
  { apply sum_nonneg. intros y Hy. apply in_map_iff in Hy.
    destruct Hy as [z [<- Hz]]. apply Hpos. now right. }
  destruct Hin as [->|Hin]; [lra|].
  assert (f a <= sum (map f l)) by (apply IH; auto). lra.
Qed.

Lemma pair_eqb_refl (p : string * string) : pair_eqb p p = true.
Proof. unfold pair_eqb. now rewrite !String.eqb_refl. Qed.

Lemma occurrences_pos (p : string * string) (ps : list (string * string)) :
  In p ps -> (1 <= occurrences p ps)%nat.
Proof.
  intros Hin. unfold occurrences.
  assert (In p (filter (pair_eqb p) ps)) as H
      by (apply filter_In; split; [assumption | apply pair_eqb_refl]).
  destruct (filter (pair_eqb p) ps); [destruct H | simpl; lia].
Qed.

Lemma In_sort_labels (l : string) (idx : Index) :
  In l (sort_labels idx) <-> In l idx.
Proof. apply sort_In. Qed.

Lemma Sorted_sort_labels (idx : Index) :
  Sorted (fun a b => String.leb a b = true) (sort_labels idx).
Proof. apply (sort_Sorted String.leb). apply String.leb_total. Qed.

Lemma NoDup_sort_labels (idx : Index) :
  NoDup idx -> NoDup (sort_labels idx).
Proof.
  apply Permutation_NoDup, Permutation_sym, sort_Permutation.
Qed.

(** The rows of a normalised table sum to 1. *)
Lemma crosstab_row_sum (rows columns_ : list cell) (r : string) :
  In r (index (Pandas.crosstab rows columns_)) ->
  sum (map (at_ (Pandas.crosstab rows columns_) r)
           (cols (Pandas.crosstab rows columns_))) = 1.
Proof.
  unfold Pandas.crosstab. cbn [index cols at_].
  set (ps := label_pairs rows columns_).
  set (clabels := sort_labels (nodup string_dec (map snd ps))).
  intros Hr. apply In_sort_labels, nodup_In, in_map_iff in Hr.
  destruct Hr as [[r' c0] [Hfst Hin]]. cbn [fst] in Hfst. subst r'.
  rewrite (sum_map_div (fun c => INR (occurrences (r, c) ps))).
  assert (1 <= sum (map (fun c => INR (occurrences (r, c) ps)) clabels)).
  { apply Rle_trans with (INR (occurrences (r, c0) ps)).
    - change 1 with (INR 1). apply le_INR. now apply occurrences_pos.
    - apply (sum_ge_term (fun c => INR (occurrences (r, c) ps))).
      + intros. apply pos_INR.
      + apply In_sort_labels, nodup_In, in_map_iff. now exists (r, c0). }
  field. lra.
Qed.

Lemma In_index_crosstab (rows columns_ : list cell) (r : string) :
  In r (index (Pandas.crosstab rows columns_)) <->
  exists c, In (r, c) (label_pairs rows columns_).
Proof.
  unfold Pandas.crosstab. cbn [index].
  rewrite In_sort_labels, nodup_In, in_map_iff. split.
  - intros [[r' c] [<- Hin]]. now exists c.
  - intros [c Hin]. now exists (r, c).
Qed.

Lemma NoDup_index_crosstab (rows columns_ : list cell) :
  NoDup (index (Pandas.crosstab rows columns_)).
Proof.
  unfold Pandas.crosstab. cbn [index].
  apply NoDup_sort_labels, NoDup_nodup.
Qed.

End CrosstabFacts.

(** C5.  For a feature and a target, both columns of the frame, the
    table has one row for each category observed together with a target
    class; every row sums to 1 over the target classes; and the rows are
    in ascending order of their labels, no label twice. *)
Theorem crosstab_row_normalised (df : DataFrame) (target f : string)
    (key tgt : column) :
  getitem df f = Ok key ->
  getitem df target = Ok tgt ->
  exists t,
    crosstab df target (Some f) = Ok t /\
    (forall r, In r (index t) <->
               exists c, In (r, c) (label_pairs (values key) (values tgt))) /\
    (forall r, In r (index t) -> sum (map (at_ t r) (cols t)) = 1%R) /\
    Sorted (fun a b => String.leb a b = true) (index t) /\
    NoDup (index t).
Proof.
  intros Hkey Htgt.
  exists (sort_index (Pandas.crosstab (values key) (values tgt))).
  split; [unfold crosstab; now rewrite Hkey, Htgt|].
  set (ct := Pandas.crosstab (values key) (values tgt)).
  unfold sort_index. cbn [index cols at_]. repeat split.
  - intros Hr. rewrite In_sort_labels in Hr.
    now apply In_index_crosstab in Hr.
  - intros H. rewrite In_sort_labels. now apply In_index_crosstab.
  - intros r Hr. rewrite In_sort_labels in Hr.
    exact (crosstab_row_sum (values key) (values tgt) r Hr).
  - apply Sorted_sort_labels.
  - apply NoDup_sort_labels, NoDup_index_crosstab.
Qed.

Lemma crosstab_row_normalised_churn :
  exists t,
    crosstab Samples.churn "churned" (Some "city") = Ok t /\
    (forall r, In r (index t) -> sum (map (at_ t r) (cols t)) = 1%R) /\
    Sorted (fun a b => String.leb a b = true) (index t).
Proof.
  destruct (crosstab_row_normalised Samples.churn "churned" "city"
              (mkColumn "city" Category
                 (Samples.strs ["Pune"; "Agra"; "Pune"]))
              (mkColumn "churned" Category
                 (Samples.strs ["no"; "yes"; "no"]))
              eq_refl eq_refl) as [t [H1 [_ [H3 [H4 _]]]]].
  exists t. repeat split; assumption.
Defined.

(** The table of the churn sample: rows [Agra], [Pune]. *)
Example crosstab_churn_index :
  exists t,
    crosstab Samples.churn "churned" (Some "city") = Ok t /\
    index t = ["Agra"; "Pune"] /\ cols t = ["no"; "yes"].
Proof. eexists. repeat split. Qed.

(** ** The start of the script *)

(* ------------------------------------------------------------------ *)
(** * Further properties of the script *)

(** ** The feature lists *)

Section FeatureLists.

Lemma filter_columns (q : string -> bool) (df : DataFrame) :
  filter q (columns df) = columns (filter (fun c => q (name c)) df).
Proof.
  unfold columns. induction df as [|c df IH]; simpl; trivial.
  destruct (q (name c)); simpl; now rewrite IH.
Qed.

Lemma filter_filter {A : Type} (p q : A -> bool) (l : list A) :
  filter q (filter p l) = filter p (filter q l).
Proof.
  induction l as [|a l IH]; simpl; trivial.
  destruct (p a) eqn:Ep, (q a) eqn:Eq; simpl; rewrite ?Ep, ?Eq, IH;
    reflexivity.
Qed.

Lemma without_select (sel : list selector) (df : DataFrame)
    (target : string) :
  without target (columns (select_dtypes sel df))
  = columns (select_dtypes sel
               (filter (fun c => negb (String.eqb (name c) target)) df)).
Proof.
  unfold without. rewrite filter_columns. unfold select_dtypes.
  now rewrite filter_filter.
Qed.

End FeatureLists.

(** X1.  The feature lists are what [select_dtypes] gives on the frame
    without its target column: dropping the label from the index and
    dropping the column from the frame agree, the order of the columns
    is kept, and a label is a numeric (categorical) feature exactly when
    it is not the target and names a column of a number (object or
    category) dtype. *)
Theorem features_in_column_order (df : DataFrame) (target : string) :
  num_features df target
  = Ok (columns (select_dtypes [number]
          (filter (fun c => negb (String.eqb (name c) target)) df))) /\
  cat_features df target
  = Ok (columns (select_dtypes [object; category]
          (filter (fun c => negb (String.eqb (name c) target)) df))) /\
  (forall nf, num_features df target = Ok nf ->
     forall f, In f nf <->
       f <> target /\
       exists c, In c df /\ name c = f /\
                 (dt c = Int64 \/ dt c = Float64 \/ dt c = UInt64)) /\
  (forall cf, cat_features df target = Ok cf ->
     forall f, In f cf <->
       f <> target /\
       exists c, In c df /\ name c = f /\
                 (dt c = Object \/ dt c = Category)).
Proof.
  rewrite num_features_Ok, cat_features_Ok.
  split; [unfold all_num; now rewrite without_select|].
  split; [unfold all_cat; now rewrite without_select|].
  split.
  - intros nf [= <-] f. rewrite In_without, In_all_num. tauto.
  - intros cf [= <-] f. rewrite In_without, In_all_cat. tauto.
Qed.

(** X2.  The guards of the feature lists in the two branches.  A target
    that fails the numeric test is no number column, so in the
    categorical branch [num_for_class] is the list of all number columns;
    a target that is not an object or category column leaves
    [cat_features] whole; and a boolean target, numeric for the test, is
    no number column either and leaves [num_features] whole. *)
Theorem feature_guards (df : DataFrame) (target : string) (ct : column) :
  NoDup (columns df) ->
  getitem df target = Ok ct ->
  (is_numeric_dtype (dt ct) = false ->
   num_for_class df target = Ok (all_num df)) /\
  (dt ct <> Object -> dt ct <> Category ->
   cat_features df target = Ok (all_cat df)) /\
  (dt ct = Bool ->
   is_target_numeric df target = Ok true /\
   num_features df target = Ok (all_num df)).
Proof.
  intros Hnd Hget. destruct (getitem_Ok_In _ _ _ Hget) as [Hin Hname].
  assert (forall l c, In c df -> name c = l -> l = target -> c = ct) as Huniq.
  { intros l c Hc Hn ->. apply NoDup_columns_inj with (df := df);
      congruence. }
  assert (dt ct <> Int64 -> dt ct <> Float64 -> dt ct <> UInt64 ->
          ~ In target (all_num df)) as Hnum.
  { intros H1 H2 H3 H. apply In_all_num in H.
    destruct H as [c [Hc [Hn Hd]]].
    rewrite (Huniq target c Hc Hn eq_refl) in Hd. tauto. }
  split; [|split].
  - intros Hgate. rewrite num_for_class_Ok. f_equal.
    apply without_not_In. apply Hnum; intros E; rewrite E in Hgate;
      discriminate.
  - intros H1 H2. rewrite cat_features_Ok. f_equal.
    apply without_not_In. intros H. apply In_all_cat in H.
    destruct H as [c [Hc [Hn Hd]]].
    rewrite (Huniq target c Hc Hn eq_refl) in Hd. tauto.
  - intros Hb. split.
    + unfold is_target_numeric. rewrite Hget. cbn [bind]. now rewrite Hb.
    + rewrite num_features_Ok. f_equal. apply without_not_In.
      apply Hnum; rewrite Hb; discriminate.
Qed.

Lemma NoDup_columns_ledger : NoDup (columns Samples.ledger).
Proof.
  repeat constructor; simpl; intuition discriminate.
Defined.

Lemma feature_guards_ledger :
  is_target_numeric Samples.ledger "paid" = Ok true /\
  num_features Samples.ledger "paid" = Ok ["units"; "account"; "revenue"].
Proof.
  destruct (feature_guards Samples.ledger "paid"
              (mkColumn "paid" Bool (Samples.nums [1; 0; 1]%R))
              NoDup_columns_ledger eq_refl) as [_ [_ H]].
  exact (H eq_refl).
Defined.

Lemma features_in_column_order_churn :
  num_features Samples.churn "churned" = Ok ["age"; "income"] /\
  forall f, In f ["age"; "income"] <->
    f <> "churned" /\
    exists c, In c Samples.churn /\ name c = f /\
              (dt c = Int64 \/ dt c = Float64 \/ dt c = UInt64).
Proof.
  destruct (features_in_column_order Samples.churn "churned")
    as [H1 [_ [H3 _]]].
  split; [exact H1|]. exact (H3 _ eq_refl).
Defined.

(** ** The ranking: errors, shape, undefined coefficients *)

Section RankingErrors.
Local Open Scope R_scope.

Lemma In_ranked_columns (df : DataFrame) (l : string) :
  In l (columns (select_dtypes [int64; float64] df)) <->
  exists c, In c df /\ name c = l /\ (dt c = Int64 \/ dt c = Float64).
Proof.
  rewrite In_columns_select.
  split; intros [c [Hc [Hn Hs]]]; exists c; repeat split; trivial.
  - simpl in Hs. destruct (dt c); simpl in Hs; try discriminate; auto.
  - simpl. destruct Hs as [-> | ->]; reflexivity.
Qed.

Lemma corr_Raise (df : DataFrame) (target : string) (k : nat) :
  ~ In target (columns (select_dtypes [int64; float64] df)) ->
  corr df target k = Raise (KeyError target).
Proof.
  intros H. unfold corr, frame_getitem. cbn [Pandas.corr cols].
  apply contains_false in H. now rewrite H.
Qed.

Lemma sum_constant (c : R) (l : list R) :
  (forall x, In x l -> x = c) -> sum l = c * INR (length l).
Proof.
  induction l as [|y l IH]; intros H.
  - simpl. ring.
  - cbn [sum fold_right length]. fold (sum l). rewrite S_INR.
    rewrite IH by (intros; apply H; now right).
    rewrite (H y) by now left. ring.
Qed.

Lemma ssqdm_constant (c : R) (l : list R) :
  (forall x, In x l -> x = c) -> ssqdm l = 0.
Proof.
  intros H. destruct l as [|y l]; [reflexivity|].
  assert (mean (y :: l) = c) as Hm.
  { unfold mean. rewrite (sum_constant c) by assumption.
    field. apply not_0_INR. discriminate. }
  unfold ssqdm. rewrite Hm.
  rewrite (sum_constant 0); [ring|].
  intros x Hx. apply in_map_iff in Hx. destruct Hx as [z [<- Hz]].
  rewrite (H z Hz). ring.
Qed.

Lemma complete_pairs_fst (xs ys : list cell) (x : R) :
  In x (map fst (complete_pairs xs ys)) -> In (Num x) xs.
Proof.
  revert ys. induction xs as [|a xs IH]; intros [|b ys]; simpl; try tauto.
  destruct a as [|u|s]; simpl; try (intros H; right; now apply (IH ys)).
  destruct (to_num b); simpl.
  - intros [<-|H]; [now left | right; now apply (IH ys)].
  - intros H; right; now apply (IH ys).
Qed.

(** A column whose numbers are all the same has no coefficient with any
    column. *)
Lemma pearson_constant (xs ys : list cell) (c : R) :
  (forall x, In (Num x) xs -> x = c) -> pearson xs ys = None.
Proof.
  intros H. unfold pearson.
  destruct (length (complete_pairs xs ys) <? 1)%nat; trivial.
  rewrite (ssqdm_constant c).
  - rewrite Rmult_0_l, sqrt_0.
    destruct (Req_dec_T 0 0) as [|Hne]; [reflexivity | contradiction].
  - intros x Hx. apply H. now apply complete_pairs_fst with ys.
Qed.

End RankingErrors.

(** X3.  The ranking raises [KeyError] on the target exactly when the
    target is not an [int64] or [float64] column, whatever [k]; this
    includes the [uint64] and [bool] targets that the numeric test of
    the script lets into the numeric branch. *)
Theorem corr_raises_iff (df : DataFrame) (target : string) (ct : column)
    (k : nat) :
  NoDup (columns df) ->
  getitem df target = Ok ct ->
  (corr df target k = Raise (KeyError target) <->
   dt ct <> Int64 /\ dt ct <> Float64) /\
  ((exists r, corr df target k = Ok r) <->
   dt ct = Int64 \/ dt ct = Float64) /\
  (dt ct = UInt64 \/ dt ct = Bool ->
   is_target_numeric df target = Ok true /\
   corr df target k = Raise (KeyError target)).
Proof.
  intros Hnd Hget. destruct (getitem_Ok_In _ _ _ Hget) as [Hin Hname].
  assert (dt ct <> Int64 -> dt ct <> Float64 ->
          corr df target k = Raise (KeyError target)) as Hraise.
  { intros H1 H2. apply corr_Raise. intros H.
    apply In_ranked_columns in H. destruct H as [c [Hc [Hn Hd]]].
    assert (c = ct) as ->
        by (apply NoDup_columns_inj with (df := df); congruence).
    tauto. }
  assert (dt ct = Int64 \/ dt ct = Float64 ->
          exists r, corr df target k = Ok r) as Hok.
  { intros Hd. rewrite (corr_Ok df target ct k Hnd Hget Hd). eauto. }
  split; [|split].
  - split.
    + intros Hr. split; intros E.
      * destruct (Hok (or_introl E)) as [r Hr']. congruence.
      * destruct (Hok (or_intror E)) as [r Hr']. congruence.
    + intros [H1 H2]. now apply Hraise.
  - split; [|exact Hok].
    intros [r Hr]. destruct (dt ct) eqn:E; auto;
      rewrite Hraise in Hr by (rewrite ?E; discriminate); discriminate.
  - intros Hd. split.
    + unfold is_target_numeric. rewrite Hget. cbn [bind].
      destruct Hd as [-> | ->]; reflexivity.
    + apply Hraise; destruct Hd as [E | E]; rewrite E; discriminate.
Qed.

Lemma corr_raises_iff_ledger :
  is_target_numeric Samples.ledger "account" = Ok true /\
  corr Samples.ledger "account" 10 = Raise (KeyError "account").
Proof.
  destruct (corr_raises_iff Samples.ledger "account"
              (mkColumn "account" UInt64
                 (Samples.nums [9223372036854775808; 9223372036854775809;
                                9223372036854775810]%R))
              10 NoDup_columns_ledger eq_refl) as [_ [_ H]].
  apply H. now left.
Defined.

(** X4.  When the target is an [int64] or [float64] column the ranking
    has one row for each other [int64] or [float64] column, cut to the
    first [k]: no feature twice, never the target, only features of the
    classifier's numeric list, and so never more rows than that list has
    members. *)
Theorem corr_ranking_shape (df : DataFrame) (target : string) (ct : column)
    (k : nat) :
  NoDup (columns df) ->
  getitem df target = Ok ct ->
  dt ct = Int64 \/ dt ct = Float64 ->
  exists r nf,
    corr df target k = Ok r /\
    num_features df target = Ok nf /\
    length r
    = Nat.min k (length (without target
                           (columns (select_dtypes [int64; float64] df)))) /\
    NoDup (map fst r) /\
    (forall f, In f (map fst r) -> f <> target /\ In f nf) /\
    length r <= length nf.
Proof.
  intros Hnd Hget Hdt.
  exists (head k (sort_values false
            (map (fun f =>
                    (f, match getitem df f with
                        | Ok cf => pearson (values cf) (values ct)
                        | Raise _ => None
                        end))
                 (without target
                    (columns (select_dtypes [int64; float64] df)))))),
         (without target (all_num df)).
  split; [exact (corr_Ok df target ct k Hnd Hget Hdt)|].
  split; [apply num_features_Ok|].
  set (feats := without target
                  (columns (select_dtypes [int64; float64] df))).
  set (s := map _ feats).
  assert (map fst s = feats) as Hkeys
      by (unfold s; rewrite map_map; apply map_id).
  assert (Permutation (map fst (sort_values false s)) feats) as Hperm.
  { rewrite <- Hkeys. apply Permutation_map. apply sort_Permutation. }
  assert (NoDup feats) as Hndf.
  { unfold feats. apply NoDup_without. now apply NoDup_columns_filter. }
  assert (forall f, In f feats -> f <> target /\
                                  In f (without target (all_num df)))
    as Hsub.
  { intros f Hf. unfold feats in Hf. apply In_without in Hf.
    destruct Hf as [Hf Hne]. split; [exact Hne|]. apply In_without.
    split; [|exact Hne]. apply In_ranked_columns in Hf.
    destruct Hf as [c [Hc [Hn Hd]]]. apply In_all_num. exists c. tauto. }
  assert (NoDup (map fst (head k (sort_values false s)))) as Hndr.
  { unfold head. rewrite <- firstn_map. apply NoDup_firstn.
    exact (Permutation_NoDup (Permutation_sym Hperm) Hndf). }
  assert (forall f, In f (map fst (head k (sort_values false s))) ->
                    In f feats) as Hin.
  { intros f Hf. unfold head in Hf. rewrite <- firstn_map in Hf.
    apply firstn_In in Hf. exact (Permutation_in _ Hperm Hf). }
  split; [|split; [exact Hndr|split]].
  - unfold head. rewrite length_firstn. unfold sort_values.
    rewrite sort_length. unfold s. now rewrite length_map.
  - intros f Hf. apply Hsub. now apply Hin.
  - rewrite <- (length_map fst).
    apply NoDup_incl_length; [exact Hndr|].
    intros f Hf. apply Hsub. now apply Hin.
Qed.

Lemma corr_ranking_shape_ledger :
  exists r nf,
    corr Samples.ledger "revenue" 10 = Ok r /\
    num_features Samples.ledger "revenue" = Ok nf /\
    length r = 1 /\ length nf = 2.
Proof.
  destruct (corr_ranking_shape Samples.ledger "revenue"
              (mkColumn "revenue" Float64 (Samples.nums [30; 12; 25]%R))
              10 NoDup_columns_ledger eq_refl (or_intror eq_refl))
    as [r [nf [H1 [H2 [H3 _]]]]].
  exists r, nf. repeat split; trivial.
  change (num_features Samples.ledger "revenue")
    with (Ok (A := Index) ["units"; "account"]) in H2.
  now injection H2 as <-.
Defined.

(** X5.  Undefined coefficients close the ranking: a row without a
    coefficient is followed only by rows without one.  And a ranked
    feature whose numbers are all the same, a column of zero variance,
    has no coefficient, so it is ranked after every feature that has
    one. *)
Theorem corr_undefined_last (df : DataFrame) (target : string) :
  (forall k r f before after,
      corr df target k = Ok r ->
      r = before ++ (f, None) :: after ->
      forall e, In e after -> snd e = None) /\
  (forall k r ct cf c v,
      NoDup (columns df) ->
      getitem df target = Ok ct ->
      In cf df ->
      (forall x, In (Num x) (values cf) -> x = c) ->
      corr df target k = Ok r ->
      In (name cf, v) r ->
      v = None).
Proof.
  split.
  - intros k r f before after Hr -> e He. unfold corr in Hr.
    destruct (frame_getitem _ _) as [s|]; [|discriminate].
    cbn [bind] in Hr.
    destruct (series_drop s target) as [s'|]; [|discriminate].
    cbn [bind] in Hr. injection Hr as Hr.
    assert (StronglySorted
              (fun a b => descending (snd a) (snd b) = true)
              (before ++ (f, None) :: after)) as Hs.
    { rewrite <- Hr. apply StronglySorted_firstn.
      unfold sort_values. apply sort_StronglySorted.
      - intros a b. apply descending_total.
      - intros a b c. apply descending_trans. }
    apply StronglySorted_after in Hs. rewrite Forall_forall in Hs.
    specialize (Hs e He). cbn [snd descending] in Hs.
    destruct (snd e); [discriminate | reflexivity].
  - intros k r ct cf c v Hnd Hget Hcf Hconst Hr Hin.
    assert (dt ct = Int64 \/ dt ct = Float64) as Hdt.
    { destruct (dt ct) eqn:E; auto; exfalso;
        assert (corr df target k = Raise (KeyError target)) as Hx
          by (apply corr_Raise; intros H; apply In_ranked_columns in H;
              destruct H as [c' [Hc' [Hn' Hd']]];
              destruct (getitem_Ok_In _ _ _ Hget) as [Hin' Hname'];
              assert (c' = ct) as ->
                  by (apply NoDup_columns_inj with (df := df); congruence);
              rewrite E in Hd'; destruct Hd'; discriminate);
        congruence. }
    rewrite (corr_Ok df target ct k Hnd Hget Hdt) in Hr.
    injection Hr as <-. unfold head in Hin. apply firstn_In in Hin.
    unfold sort_values in Hin. apply sort_In in Hin.
    apply in_map_iff in Hin. destruct Hin as [f [[= Hf <-] _]].
    rewrite Hf, (getitem_In df cf Hnd Hcf).
    now apply pearson_constant with c.
Qed.

Lemma NoDup_columns_flat : NoDup (columns Samples.flat).
Proof.
  repeat constructor; simpl; intuition discriminate.
Defined.

Lemma flat_level_constant :
  forall x, In (Num x) (Samples.nums [7; 7; 7]%R) -> x = 7%R.
Proof.
  simpl. intros x [H|[H|[H|[]]]]; now injection H.
Defined.

Lemma corr_undefined_last_flat :
  exists r, corr Samples.flat "t" 10 = Ok r /\ In ("level", None) r.
Proof.
  destruct (corr_undefined_last Samples.flat "t") as [_ H].
  eexists. split; [reflexivity|].
  set (v := pearson (Samples.nums [7; 7; 7]%R) (Samples.nums [5; 3; 8]%R)).
  assert (In ("level", v)
             (head 10 (sort_values false
                [("level", v);
                 ("speed", pearson (Samples.nums [1; 2; 4]%R)
                                   (Samples.nums [5; 3; 8]%R))]))) as Hin.
  { unfold head. rewrite firstn_all2.
    - apply sort_In. now left.
    - unfold sort_values. rewrite sort_length. simpl. lia. }
  rewrite <- (H 10 _
                (mkColumn "t" Float64 (Samples.nums [5; 3; 8]%R))
                (mkColumn "level" Int64 (Samples.nums [7; 7; 7]%R))
                7%R v NoDup_columns_flat eq_refl (or_introl eq_refl)
                flat_level_constant
                eq_refl Hin) at 1.
  exact Hin.
Defined.

(** ** The redundancy check and the risk table *)

Section RedundancyFacts.
Local Open Scope R_scope.

Lemma corr_val_Ok (df : DataFrame) (f1 f2 : string) (c1 c2 : column) :
  getitem df f1 = Ok c1 -> getitem df f2 = Ok c2 ->
  corr_val df f1 f2 = Ok (pearson (values c1) (values c2)).
Proof.
  intros H1 H2. unfold corr_val. cbn [getitems]. rewrite H1, H2.
  cbn [bind]. unfold iloc. cbn [Pandas.corr index cols columns map
                                  nth_error at_ getitem].
  destruct (getitem_Ok_In _ _ _ H1) as [_ Hn1].
  destruct (getitem_Ok_In _ _ _ H2) as [_ Hn2].
  rewrite String.eqb_refl.
  destruct (String.eqb_spec (name c1) (name c2)) as [E|E].
  - assert (c1 = c2) as -> by congruence. reflexivity.
  - now rewrite String.eqb_refl.
Qed.

Lemma selectbox_Some (options : Index) (pick : option string) (f : string) :
  selectbox options pick = Some f -> In f options.
Proof.
  unfold selectbox. destruct options as [|first rest]; [discriminate|].
  destruct pick as [p|].
  - destruct (contains (first :: rest) p) eqn:E; intros [= <-].
    + now apply contains_In.
    + now left.
  - intros [= <-]. now left.
Qed.

Lemma selectbox_None (options : Index) (pick : option string) :
  selectbox options pick = None <-> options = [].
Proof.
  unfold selectbox. destruct options as [|first rest].
  - tauto.
  - destruct pick as [p|]; [destruct (contains _ p)|];
      split; discriminate.
Qed.

Lemma num_features_columns (df : DataFrame) (target : string) (nf : Index) :
  num_features df target = Ok nf ->
  forall f, In f nf -> In f (columns df).
Proof.
  rewrite num_features_Ok. intros [= <-] f Hf. apply In_without in Hf.
  now apply all_num_columns.
Qed.

Lemma StronglySorted_impl {A : Type} (P Q : A -> A -> Prop) (l : list A) :
  (forall a b, P a b -> Q a b) ->
  StronglySorted P l -> StronglySorted Q l.
Proof.
  intros HPQ. induction 1 as [|a l Hs IH Hall]; constructor; trivial.
  rewrite Forall_forall in *. auto.
Qed.

End RedundancyFacts.

(** X7.  The risk table lists its rows from the largest value down.
    From pandas 3 on, where the rows without a value are kept, these
    come after all the others. *)
Theorem risk_table_sorted (cm : Frame (option R)) :
  StronglySorted (fun e1 e2 => (snd e2 <= snd e1)%R) (high_corr_pairs cm) /\
  StronglySorted (fun e1 e2 => descending (snd e1) (snd e2) = true)
                 (high_corr_pairs_keepna cm) /\
  (forall before pair after,
      high_corr_pairs_keepna cm = before ++ (pair, None) :: after ->
      forall e, In e after -> snd e = None).
Proof.
  assert (StronglySorted (fun e1 e2 => descending (snd e1) (snd e2) = true)
                         (high_corr_pairs_keepna cm)) as Hkeep.
  { unfold high_corr_pairs_keepna, sort_values.
    apply (sort_StronglySorted
             (fun a b : string * string * option R =>
                descending (snd a) (snd b))).
    - intros a b. apply descending_total.
    - intros a b c. apply descending_trans. }
  split; [|split; [exact Hkeep|]].
  - unfold high_corr_pairs, sort_values_R.
    apply StronglySorted_impl
      with (P := fun a b : string * string * R =>
                   Rleb (snd b) (snd a) = true).
    + intros a b H. now apply Rleb_le.
    + apply (sort_StronglySorted
               (fun a b : string * string * R => Rleb (snd b) (snd a))).
      * intros a b. apply Rleb_total.
      * intros a b c H1 H2. now apply Rleb_trans with (snd b).
  - intros before pair after E e Hin. rewrite E in Hkeep.
    apply StronglySorted_after in Hkeep. rewrite Forall_forall in Hkeep.
    specialize (Hkeep e Hin). cbn [snd] in Hkeep.
    destruct (snd e); [discriminate | reflexivity].
Qed.

(** X8.  The risk section never raises: for every frame and target it
    renders exactly one element, the message or the table, and ends
    normally. *)
Theorem multicollinearity_risks_never_fails (df : DataFrame)
    (target : string) :
  multicollinearity_risks df target
  = ([info "Not enough numerical features for correlation analysis."],
     Done tt)
  \/ exists cm,
       multicollinearity_risks df target
       = ([dataframe (high_corr_pairs cm)], Done tt).
Proof.
  unfold multicollinearity_risks.
  pose proof (num_features_columns df target
                (without target (all_num df))
                (num_features_Ok df target)) as Hsub.
  rewrite num_features_Ok, seq_eval_Ok.
  destruct (length (without target (all_num df)) <? 2)%nat;
    [now left | right].
  destruct (getitems_Ok df _ Hsub) as [sub [Hsubeq _]].
  exists (abs (get_correlation sub)).
  unfold corr_matrix. rewrite Hsubeq. reflexivity.
Qed.

(** X10.  The redundancy check never raises.  It renders nothing when
    the two select boxes show the same feature (always so with fewer
    than two numeric features); otherwise it renders one scatter plot,
    of two different numeric features, titled with their coefficient. *)
Theorem redundancy_check_never_fails (df : DataFrame) (target : string)
    (w : widgets) :
  redundancy_check df target w = ([], Done tt)
  \/ exists a b v,
       redundancy_check df target w = ([scatter_pair a b v], Done tt) /\
       a <> b /\
       corr_val df a b = Ok v /\
       exists nf, num_features df target = Ok nf /\ In a nf /\ In b nf.
Proof.
  unfold redundancy_check.
  pose proof (num_features_columns df target
                (without target (all_num df))
                (num_features_Ok df target)) as Hsub.
  rewrite num_features_Ok, seq_eval_Ok. cbv zeta.
  set (nf := without target (all_num df)) in *.
  destruct (option_eqb (selectbox nf (f1 w)) (selectbox nf (f2 w))) eqn:E;
    [now left|].
  destruct (selectbox nf (f1 w)) as [a|] eqn:Ea;
    destruct (selectbox nf (f2 w)) as [b|] eqn:Eb; try (now left).
  right. apply selectbox_Some in Ea, Eb.
  destruct (getitem_defined df a (Hsub a Ea)) as [ca Hca].
  destruct (getitem_defined df b (Hsub b Eb)) as [cb Hcb].
  exists a, b, (pearson (values ca) (values cb)).
  rewrite (corr_val_Ok df a b ca cb Hca Hcb), seq_eval_Ok.
  split; [reflexivity|]. split.
  - intros ->. cbn [option_eqb] in E. rewrite String.eqb_refl in E.
    discriminate.
  - split; [reflexivity|]. exists nf. now repeat split.
Qed.

(** ** How the categorical tab ends *)

Section TabRuns.
Variable df : DataFrame.
Variable target : string.
Variable w : widgets.

Lemma cat_features_columns (cf : Index) :
  cat_features df target = Ok cf ->
  forall f, In f cf -> In f (columns df).
Proof.
  rewrite cat_features_Ok. intros [= <-] f Hf. apply In_without in Hf.
  destruct Hf as [Hf _]. apply In_all_cat in Hf.
  destruct Hf as [c [Hc [<- _]]]. now apply in_map.
Qed.

Lemma tab5_run (cf : Index) (f : string) (key val : column) :
  cat_features df target = Ok cf ->
  selectbox cf (cat_feature w) = Some f ->
  getitem df f = Ok key ->
  getitem df target = Ok val ->
  exists i s,
    impact df target (Some f) = Ok i /\
    stats df target (Some f) = Ok s /\
    tab5 df target w = ([bar i; scatter s], Done tt).
Proof.
  intros Hcf Hsel Hkey Hval. eexists. eexists.
  split; [exact (impact_Ok df target f key val Hkey Hval)|].
  split; [exact (stats_Ok df target f key val Hkey Hval)|].
  unfold tab5. rewrite Hcf, seq_eval_Ok. cbv zeta.
  rewrite Hsel, (impact_Ok df target f key val Hkey Hval),
    (stats_Ok df target f key val Hkey Hval).
  rewrite seq_eval_Ok, seq_render, seq_eval_Ok. reflexivity.
Qed.

Lemma tab5_no_feature :
  cat_features df target = Ok [] ->
  tab5 df target w
  = ([], Failed (TypeError "You have to supply one of 'by' and 'level'")).
Proof.
  intros Hcf. unfold tab5. rewrite Hcf, seq_eval_Ok. reflexivity.
Qed.

End TabRuns.

(** X11.  How the categorical tab of the numeric branch ends.  Without a
    categorical feature the select box has nothing to offer and
    [groupby] raises [TypeError] before anything is rendered; with one,
    the tab renders the impact chart and the stability chart of the
    selected feature and ends normally. *)
Theorem tab5_outcome (df : DataFrame) (target : string) (w : widgets)
    (val : column) (cf : Index) :
  getitem df target = Ok val ->
  cat_features df target = Ok cf ->
  (cf = [] ->
   tab5 df target w
   = ([], Failed (TypeError "You have to supply one of 'by' and 'level'")))
  /\
  (cf <> [] ->
   exists f i s,
     selectbox cf (cat_feature w) = Some f /\ In f cf /\
     impact df target (Some f) = Ok i /\
     stats df target (Some f) = Ok s /\
     tab5 df target w = ([bar i; scatter s], Done tt)).
Proof.
  intros Hval Hcf. split.
  - intros ->. now apply tab5_no_feature.
  - intros Hne.
    destruct (selectbox cf (cat_feature w)) as [f|] eqn:Hsel;
      [|apply selectbox_None in Hsel; contradiction].
    pose proof (selectbox_Some _ _ _ Hsel) as Hin.
    destruct (getitem_defined df f
                (cat_features_columns df target cf Hcf f Hin))
      as [key Hkey].
    destruct (tab5_run df target w cf f key val Hcf Hsel Hkey Hval)
      as [i [s [Hi [Hs Hrun]]]].
    exists f, i, s. auto.
Qed.

Lemma tab5_outcome_steps :
  tab5 Samples.steps "t" (mkWidgets 10 None None None)
  = ([], Failed (TypeError "You have to supply one of 'by' and 'level'")).
Proof.
  destruct (tab5_outcome Samples.steps "t" (mkWidgets 10 None None None)
              (mkColumn "t" Float64 (Samples.nums [3; 1; 4; 1; 5]%R))
              [] eq_refl eq_refl) as [H _].
  exact (H eq_refl).
Defined.

(** ** The aggregates of the stability table *)

Section AggregateFacts.
Local Open Scope R_scope.

Lemma count_cons (v : cell) (vs : list cell) :
  count (v :: vs) = (count [v] + count vs)%nat.
Proof. unfold count. simpl. destruct (to_num v); reflexivity. Qed.

Lemma total_add (k : string) (v : cell) (gs : list (string * list cell)) :
  series_sum (map (fun g => (fst g, count (snd g))) (add_to_group k v gs))
  = (count [v]
     + series_sum (map (fun g => (fst g, count (snd g))) gs))%nat.
Proof.
  induction gs as [|[k' vs] gs IH]; cbn [add_to_group].
  - simpl. lia.
  - destruct (String.eqb k k'); cbn [map series_sum fold_right fst snd].
    + rewrite count_cons. fold (series_sum
        (map (fun g : string * list cell => (fst g, count (snd g))) gs)).
      lia.
    + fold (series_sum
        (map (fun g : string * list cell => (fst g, count (snd g)))
             (add_to_group k v gs))).
      rewrite IH.
      fold (series_sum
        (map (fun g : string * list cell => (fst g, count (snd g))) gs)).
      lia.
Qed.

Lemma total_split (keys vals : list cell) :
  series_sum (map (fun g => (fst g, count (snd g)))
                  (split_groups keys vals))
  = count (rows_with_label keys vals).
Proof.
  revert vals. induction keys as [|k keys IH]; intros [|v vals]; simpl;
    trivial.
  destruct (to_label k); [|apply IH].
  rewrite total_add, IH. symmetry. apply count_cons.
Qed.

Lemma series_sum_Permutation {L : Type} (s s' : Series L nat) :
  Permutation s s' -> series_sum s = series_sum s'.
Proof.
  induction 1; simpl; lia.
Qed.

End AggregateFacts.

Section CountBounds.

Lemma count_le_length (cs : list cell) : count cs <= length cs.
Proof.
  unfold count. induction cs as [|c cs IH]; simpl; trivial.
  destruct (to_num c); simpl; lia.
Qed.

Lemma rows_with_label_length (keys vals : list cell) :
  length (rows_with_label keys vals) <= length vals.
Proof.
  revert vals. induction keys as [|k keys IH]; intros [|v vals]; simpl;
    try lia.
  specialize (IH vals). destruct (to_label k); simpl; lia.
Qed.

End CountBounds.

(** X14.  The counts of the stability table add up to the number of rows
    of the frame that have both a category and a target value; so they
    never add up to more than the frame has rows. *)
Theorem stats_counts_add_up (df : DataFrame) (target f : string)
    (key val : column) :
  getitem df f = Ok key ->
  getitem df target = Ok val ->
  exists s,
    stats df target (Some f) = Ok s /\
    series_sum (map (fun e => (fst e, agg_count (snd e))) s)
    = count (rows_with_label (values key) (values val)) /\
    series_sum (map (fun e => (fst e, agg_count (snd e))) s)
    <= length (values val).
Proof.
  intros Hkey Hval. eexists.
  split; [exact (stats_Ok df target f key val Hkey Hval)|].
  set (leb := fun a b : string * agg_row =>
                ascending (agg_median (snd a)) (agg_median (snd b))).
  set (h := fun g : string * list cell =>
              (fst g, mkAgg (median (snd g)) (std (snd g)) (count (snd g)))).
  assert (series_sum
            (map (fun e => (fst e, agg_count (snd e)))
                 (sort leb (map h (groupby key val))))
          = count (rows_with_label (values key) (values val))) as Hsum.
  { rewrite (series_sum_Permutation _ _
               (Permutation_map _ (sort_Permutation leb _))).
    rewrite map_map. unfold h. cbn [fst snd agg_count].
    unfold groupby.
    rewrite (series_sum_Permutation _ _
               (Permutation_map _ (sort_Permutation _ _))).
    apply total_split. }
  split; [exact Hsum|]. rewrite Hsum.
  eapply Nat.le_trans; [apply count_le_length|].
  apply rows_with_label_length.
Qed.

Lemma stats_counts_add_up_sales :
  exists s,
    stats Samples.sales "price" (Some "region") = Ok s /\
    series_sum (map (fun e => (fst e, agg_count (snd e))) s) = 11.
Proof.
  destruct (stats_counts_add_up Samples.sales "price" "region"
              (mkColumn "region" Object
                 (Samples.strs ["A"; "A"; "B"; "A"; "A"; "A"; "A"; "A";
                                "A"; "A"; "A"]))
              (mkColumn "price" Float64
                 (Samples.nums [10; 12; 40; 11; 9; 13; 10; 12; 11; 10;
                                12]%R))
              eq_refl eq_refl) as [s [H1 [H2 _]]].
  exists s. split; [exact H1|]. exact H2.
Defined.

(** ** The entries of the cross tabulation *)

Section CrosstabEntries.
Local Open Scope R_scope.

Lemma occurrences_cons (q p : string * string)
    (ps : list (string * string)) :
  occurrences q (p :: ps)
  = ((if pair_eqb q p then 1 else 0) + occurrences q ps)%nat.
Proof. unfold occurrences. simpl. now destruct (pair_eqb q p). Qed.

Lemma occurrences_zero (p : string * string)
    (ps : list (string * string)) :
  occurrences p ps = 0%nat <-> ~ In p ps.
Proof.
  split.
  - intros Hz Hin. apply occurrences_pos in Hin. lia.
  - intros Hnot. unfold occurrences.
    destruct (filter (pair_eqb p) ps) as [|q l] eqn:E; trivial.
    exfalso. apply Hnot.
    assert (In q (filter (pair_eqb p) ps)) as Hq by (rewrite E; now left).
    apply filter_In in Hq. destruct Hq as [Hq Heq].
    unfold pair_eqb in Heq. apply andb_true_iff in Heq.
    destruct Heq as [H1 H2]. apply String.eqb_eq in H1, H2.
    destruct p, q. simpl in *. now subst.
Qed.

(** Over a list without repetition that holds [y], exactly one label is
    [y]. *)
Lemma indicator_sum (y : string) (cl : Index) :
  NoDup cl -> In y cl ->
  list_sum (map (fun c => if String.eqb c y then 1 else 0)%nat cl) = 1%nat.
Proof.
  induction 1 as [|c cl Hnotin Hnd IH]; intros Hin; [destruct Hin|].
  simpl. destruct (String.eqb_spec c y) as [->|Hne].
  - assert (list_sum (map (fun c => if String.eqb c y then 1 else 0)%nat cl)
            = 0%nat) as Hz.
    { clear IH Hin Hnd. induction cl as [|d cl IH]; simpl; trivial.
      destruct (String.eqb_spec d y) as [->|_].
      - exfalso. apply Hnotin. now left.
      - apply IH. intros H. apply Hnotin. now right. }
    now rewrite Hz.
  - destruct Hin as [Hin|Hin]; [contradiction|]. now apply IH.
Qed.

Lemma list_sum_map_add {A : Type} (g h : A -> nat) (l : list A) :
  list_sum (map (fun a => g a + h a)%nat l)
  = (list_sum (map g l) + list_sum (map h l))%nat.
Proof. induction l as [|a l IH]; simpl; lia. Qed.

Lemma list_sum_map_zero {A : Type} (l : list A) :
  list_sum (map (fun _ => 0%nat) l) = 0%nat.
Proof. induction l; simpl; trivial. Qed.

(** Summed over the classes, the occurrences of the pairs of row [r]
    give the number of pairs whose first label is [r]. *)
Lemma row_total_nat (r : string) (ps : list (string * string))
    (cl : Index) :
  NoDup cl ->
  (forall p, In p ps -> In (snd p) cl) ->
  list_sum (map (fun c => occurrences (r, c) ps) cl)
  = length (filter (fun p => String.eqb (fst p) r) ps).
Proof.
  intros Hnd. induction ps as [|p ps IH]; intros Hcov.
  - simpl. unfold occurrences. simpl. apply list_sum_map_zero.
  - rewrite (map_ext _ (fun c =>
               (if pair_eqb (r, c) p then 1 else 0)
               + occurrences (r, c) ps)%nat)
      by (intros; apply occurrences_cons).
    rewrite list_sum_map_add, IH by (intros; apply Hcov; now right).
    cbn [filter]. unfold pair_eqb. cbn [fst snd].
    destruct (String.eqb_spec (fst p) r) as [<-|Hne].
    + rewrite String.eqb_refl. cbn [andb length].
      rewrite indicator_sum; [reflexivity | exact Hnd |].
      apply Hcov. now left.
    + destruct (String.eqb_spec r (fst p)) as [E|_]; [congruence|].
      cbn [andb]. now rewrite list_sum_map_zero.
Qed.

Lemma sum_INR {A : Type} (g : A -> nat) (l : list A) :
  sum (map (fun a => INR (g a)) l) = INR (list_sum (map g l)).
Proof.
  induction l as [|a l IH]; simpl; trivial.
  fold (sum (map (fun a => INR (g a)) l)). rewrite IH.
  now rewrite plus_INR.
Qed.

(** The value the table holds at a row and a class: the share of the
    pairs of that row that fall in the class. *)
Lemma crosstab_at (rows columns_ : list cell) (r c : string) :
  at_ (Pandas.crosstab rows columns_) r c
  = INR (occurrences (r, c) (label_pairs rows columns_))
    / INR (length (filter (fun p => String.eqb (fst p) r)
                          (label_pairs rows columns_))).
Proof.
  unfold Pandas.crosstab. cbn [at_].
  set (ps := label_pairs rows columns_).
  rewrite (sum_INR (fun c => occurrences (r, c) ps)).
  rewrite row_total_nat; trivial.
  - apply NoDup_sort_labels, NoDup_nodup.
  - intros p Hp. apply In_sort_labels, nodup_In. now apply in_map.
Qed.

Lemma In_cols_crosstab (rows columns_ : list cell) (c : string) :
  In c (cols (Pandas.crosstab rows columns_)) <->
  exists r, In (r, c) (label_pairs rows columns_).
Proof.
  unfold Pandas.crosstab. cbn [cols].
  rewrite In_sort_labels, nodup_In, in_map_iff. split.
  - intros [[r c'] [<- Hin]]. now exists r.
  - intros [r Hin]. now exists (r, c).
Qed.

End CrosstabEntries.

(** X17.  In the table of a feature against the target, the columns are
    the target classes observed together with a category, in ascending
    order, each once.  The entry of a category and a class is the number
    of rows of the frame with that category and that class over the
    number of rows with that category (and any class): it lies in
    [0, 1], and it is 0 exactly when the two never occur together. *)
Theorem crosstab_entries (df : DataFrame) (target f : string)
    (key tgt : column) :
  getitem df f = Ok key ->
  getitem df target = Ok tgt ->
  exists t,
    crosstab df target (Some f) = Ok t /\
    Sorted (fun a b => String.leb a b = true) (cols t) /\
    NoDup (cols t) /\
    (forall c, In c (cols t) <->
       exists r, In (r, c) (label_pairs (values key) (values tgt))) /\
    (forall r c,
        In r (index t) ->
        at_ t r c
        = (INR (occurrences (r, c)
                  (label_pairs (values key) (values tgt)))
           / INR (length (filter (fun p => String.eqb (fst p) r)
                            (label_pairs (values key) (values tgt)))))%R /\
        (0 <= at_ t r c <= 1)%R /\
        (at_ t r c = 0%R <->
         ~ In (r, c) (label_pairs (values key) (values tgt)))).
Proof.
  intros Hkey Htgt.
  exists (sort_index (Pandas.crosstab (values key) (values tgt))).
  split; [unfold crosstab; now rewrite Hkey, Htgt|].
  set (ps := label_pairs (values key) (values tgt)).
  unfold sort_index. cbn [index cols at_].
  split; [unfold Pandas.crosstab; cbn [cols]; apply Sorted_sort_labels|].
  split; [unfold Pandas.crosstab; cbn [cols];
          apply NoDup_sort_labels, NoDup_nodup|].
  split; [intros c; apply In_cols_crosstab|].
  intros r c Hr. rewrite In_sort_labels in Hr.
  apply In_index_crosstab in Hr. destruct Hr as [c0 Hc0]. fold ps in Hc0.
  rewrite crosstab_at. fold ps.
  set (n := length (filter (fun p => String.eqb (fst p) r) ps)).
  assert (occurrences (r, c) ps <= n)%nat as Hle.
  { unfold occurrences, n. clear. induction ps as [|p ps IH]; simpl; trivial.
    unfold pair_eqb at 1. cbn [fst snd].
    destruct (String.eqb_spec r (fst p)) as [->|Hne].
    - rewrite String.eqb_refl. destruct (String.eqb c (snd p)); simpl; lia.
    - destruct (String.eqb_spec (fst p) r) as [E|_]; [congruence|].
      simpl. exact IH. }
  assert (1 <= n)%nat as Hn.
  { unfold n.
    assert (In (r, c0) (filter (fun p => String.eqb (fst p) r) ps)) as H
        by (apply filter_In; split; [exact Hc0 | apply String.eqb_refl]).
    destruct (filter _ ps); [destruct H | simpl; lia]. }
  assert (1 <= INR n)%R as HnR by (change 1%R with (INR 1); now apply le_INR).
  assert (0 <= INR (occurrences (r, c) ps) <= INR n)%R as Hocc
      by (split; [apply pos_INR | now apply le_INR]).
  assert (0 < / INR n)%R as Hinv by (apply Rinv_0_lt_compat; lra).
  assert (INR n * / INR n = 1)%R as Hone by (field; lra).
  split; [reflexivity|]. split.
  - unfold Rdiv. split; nra.
  - rewrite <- occurrences_zero. split.
    + intros Hz. unfold Rdiv in Hz. apply Rmult_integral in Hz.
      destruct Hz as [Hz|Hz]; [|lra].
      now apply INR_eq.
    + intros ->. unfold Rdiv. simpl. ring.
Qed.

Lemma crosstab_entries_churn :
  exists t,
    crosstab Samples.churn "churned" (Some "city") = Ok t /\
    cols t = ["no"; "yes"] /\
    at_ t "Pune" "no" = 1%R /\ at_ t "Pune" "yes" = 0%R.
Proof.
  destruct (crosstab_entries Samples.churn "churned" "city"
              (mkColumn "city" Category
                 (Samples.strs ["Pune"; "Agra"; "Pune"]))
              (mkColumn "churned" Category
                 (Samples.strs ["no"; "yes"; "no"]))
              eq_refl eq_refl) as [t [H1 [_ [_ [_ H5]]]]].
  exists t. split; [exact H1|].
  assert (t = sort_index (Pandas.crosstab
                (Samples.strs ["Pune"; "Agra"; "Pune"])
                (Samples.strs ["no"; "yes"; "no"]))) as Et.
  { change (crosstab Samples.churn "churned" (Some "city"))
      with (Ok (sort_index (Pandas.crosstab
                  (Samples.strs ["Pune"; "Agra"; "Pune"])
                  (Samples.strs ["no"; "yes"; "no"])))) in H1.
    now injection H1. }
  split; [rewrite Et; reflexivity|].
  assert (In "Pune" (index t)) as Hp by (rewrite Et; right; now left).
  split.
  - destruct (H5 "Pune" "no" Hp) as [E _]. rewrite E.
    cbn. field.
  - destruct (H5 "Pune" "yes" Hp) as [_ [_ E]]. apply E.
    cbn. intuition discriminate.
Defined.

(** ** The class distribution *)

Section ValueCounts.

Lemma cell_eqb_eq (a b : cell) : cell_eqb a b = true <-> a = b.
Proof.
  destruct a as [|x|s], b as [|y|t]; simpl; try (split; congruence).
  - destruct (Req_dec_T x y); split; congruence.
  - rewrite String.eqb_eq. split; congruence.
Qed.

Lemma cell_eqb_refl (a : cell) : cell_eqb a a = true.
Proof. now apply cell_eqb_eq. Qed.

Lemma cell_eqb_neq (a b : cell) : cell_eqb a b = false <-> a <> b.
Proof.
  rewrite <- cell_eqb_eq. destruct (cell_eqb a b); split; congruence.
Qed.

Lemma tally_get_bump (k c : cell) (t : list (cell * nat)) :
  tally_get k (bump c t)
  = (if cell_eqb k c then 1 else 0) + tally_get k t.
Proof.
  induction t as [|[k' n] t IH]; cbn [bump tally_get].
  - destruct (cell_eqb k c); lia.
  - destruct (cell_eqb c k') eqn:E; cbn [tally_get].
    + apply cell_eqb_eq in E. subst k'.
      destruct (cell_eqb k c); lia.
    + destruct (cell_eqb k k') eqn:E'; [|exact IH].
      apply cell_eqb_eq in E'. subst k'.
      apply cell_eqb_neq in E.
      assert (cell_eqb k c = false) as ->
          by (apply cell_eqb_neq; congruence).
      lia.
Qed.

Lemma keys_bump (k c : cell) (t : list (cell * nat)) :
  In k (map fst (bump c t)) <-> k = c \/ In k (map fst t).
Proof.
  induction t as [|[k' n] t IH]; cbn [bump].
  - simpl. intuition.
  - destruct (cell_eqb c k') eqn:E; cbn [map fst In].
    + apply cell_eqb_eq in E. subst k'. intuition.
    + rewrite IH. intuition.
Qed.

Lemma NoDup_bump (c : cell) (t : list (cell * nat)) :
  NoDup (map fst t) -> NoDup (map fst (bump c t)).
Proof.
  induction t as [|[k' n] t IH]; cbn [bump]; intros Hnd.
  - repeat constructor. simpl. tauto.
  - inversion Hnd as [|? ? Hnotin Hnd']; subst.
    destruct (cell_eqb c k') eqn:E; cbn [map fst].
    + now constructor.
    + constructor; [|now apply IH].
      rewrite keys_bump. intros [->|H]; [|contradiction].
      rewrite cell_eqb_refl in E. discriminate.
Qed.

Lemma total_bump (c : cell) (t : list (cell * nat)) :
  series_sum (bump c t) = S (series_sum t).
Proof.
  induction t as [|[k' n] t IH]; cbn [bump]; [reflexivity|].
  destruct (cell_eqb c k'); cbn [series_sum fold_right snd].
  - fold (series_sum t). lia.
  - fold (series_sum (bump c t)). fold (series_sum t). lia.
Qed.

Lemma tally_get_In (k : cell) (n : nat) (t : list (cell * nat)) :
  NoDup (map fst t) -> In (k, n) t -> tally_get k t = n.
Proof.
  induction t as [|[k' m] t IH]; simpl; intros Hnd Hin; [tauto|].
  inversion Hnd as [|? ? Hnotin Hnd']; subst.
  destruct Hin as [[= -> ->]|Hin].
  - now rewrite cell_eqb_refl.
  - destruct (cell_eqb k k') eqn:E; [|now apply IH].
    apply cell_eqb_eq in E. subst k'. exfalso. apply Hnotin.
    apply in_map_iff. now exists (k, n).
Qed.

Lemma occurs_cons (k c : cell) (cs : list cell) :
  occurs k (c :: cs) = (if cell_eqb k c then 1 else 0) + occurs k cs.
Proof. unfold occurs. simpl. now destruct (cell_eqb k c). Qed.

Lemma occurs_pos (k : cell) (cs : list cell) : In k cs -> 1 <= occurs k cs.
Proof.
  intros Hin. unfold occurs.
  assert (In k (filter (cell_eqb k) cs)) as H
      by (apply filter_In; split; [assumption | apply cell_eqb_refl]).
  destruct (filter (cell_eqb k) cs); [destruct H | simpl; lia].
Qed.

Lemma tally_get_from (k : cell) (cs : list cell) :
  isna k = false ->
  forall t, tally_get k (tally_from t cs) = tally_get k t + occurs k cs.
Proof.
  intros Hk. induction cs as [|c cs IH]; intros t; cbn [tally_from].
  - unfold occurs. simpl. lia.
  - rewrite IH, occurs_cons. destruct (isna c) eqn:Ec.
    + destruct c; try discriminate.
      destruct k; try discriminate; simpl; lia.
    + rewrite tally_get_bump. lia.
Qed.

Lemma keys_from (k : cell) (cs : list cell) :
  forall t,
    In k (map fst (tally_from t cs)) <->
    In k (map fst t) \/ (In k cs /\ isna k = false).
Proof.
  induction cs as [|c cs IH]; intros t; cbn [tally_from].
  - simpl. tauto.
  - rewrite IH. destruct (isna c) eqn:Ec.
    + simpl. split; [tauto|].
      intros [H|[[->|H] Hk]]; [tauto | congruence | tauto].
    + rewrite keys_bump. simpl. split.
      * intros [[->|H]|[H Hk]]; auto.
      * intros [H|[[->|H] Hk]]; auto.
Qed.

Lemma NoDup_from (cs : list cell) :
  forall t, NoDup (map fst t) -> NoDup (map fst (tally_from t cs)).
Proof.
  induction cs as [|c cs IH]; intros t Hnd; cbn [tally_from]; trivial.
  apply IH. destruct (isna c); [assumption | now apply NoDup_bump].
Qed.

Lemma total_from (cs : list cell) :
  forall t,
    series_sum (tally_from t cs) + length (filter isna cs)
    = series_sum t + length cs.
Proof.
  induction cs as [|c cs IH]; intros t; cbn [tally_from filter length].
  - lia.
  - destruct (isna c); cbn [length].
    + specialize (IH t). lia.
    + specialize (IH (bump c t)). rewrite total_bump in IH. lia.
Qed.

End ValueCounts.

(** X18.  The class distribution of the target lists each value of the
    target column once, never the missing value, with the number of rows
    that hold it, which is at least 1; it runs from the most frequent
    value down; and its counts together with the missing cells account
    for every row. *)
Theorem class_counts_spec (df : DataFrame) (target : string) (c : column) :
  getitem df target = Ok c ->
  exists s,
    class_counts df target = Ok s /\
    NoDup (map fst s) /\
    (forall k, In k (map fst s) <-> In k (values c) /\ isna k = false) /\
    (forall k n, In (k, n) s -> n = occurs k (values c) /\ 1 <= n) /\
    StronglySorted (fun a b => snd b <= snd a) s /\
    series_sum s + length (filter isna (values c)) = length (values c).
Proof.
  intros Hget. eexists.
  split; [unfold class_counts; rewrite Hget; reflexivity|].
  unfold value_counts.
  set (leb := fun a b : cell * nat => Nat.leb (snd b) (snd a)).
  set (t := tally_from [] (values c)).
  pose proof (sort_Permutation leb t) as Hperm.
  assert (NoDup (map fst t)) as Hnd
      by (apply NoDup_from; constructor).
  assert (forall k, In k (map fst t) <->
                    In k (values c) /\ isna k = false) as Hkeys.
  { intros k. unfold t. rewrite keys_from. simpl. tauto. }
  split; [|split; [|split; [|split]]].
  - exact (Permutation_NoDup
             (Permutation_sym (Permutation_map fst Hperm)) Hnd).
  - intros k. rewrite <- Hkeys. split; apply Permutation_in.
    + exact (Permutation_map fst Hperm).
    + exact (Permutation_sym (Permutation_map fst Hperm)).
  - intros k n Hin. apply sort_In in Hin.
    assert (In k (map fst t)) as Hk
        by (apply in_map_iff; now exists (k, n)).
    apply Hkeys in Hk. destruct Hk as [Hk Hna].
    pose proof (tally_get_In k n t Hnd Hin) as Hn.
    unfold t in Hn. rewrite (tally_get_from k (values c) Hna) in Hn.
    simpl in Hn. subst n. split; [reflexivity | now apply occurs_pos].
  - apply StronglySorted_impl
      with (P := fun a b : cell * nat => leb a b = true).
    + intros a b H. now apply Nat.leb_le.
    + apply (sort_StronglySorted leb).
      * intros a b. unfold leb.
        destruct (Nat.le_ge_cases (snd b) (snd a));
          [left | right]; now apply Nat.leb_le.
      * intros a b d. unfold leb. rewrite !Nat.leb_le. lia.
  - rewrite (series_sum_Permutation _ _ Hperm).
    pose proof (total_from (values c) []) as H. exact H.
Qed.

Lemma class_counts_spec_churn :
  exists s,
    class_counts Samples.churn "churned" = Ok s /\
    (forall n, In (Str "no", n) s -> n = 2) /\
    series_sum s = 3.
Proof.
  destruct (class_counts_spec Samples.churn "churned"
              (mkColumn "churned" Category
                 (Samples.strs ["no"; "yes"; "no"]))
              eq_refl) as [s [H1 [_ [_ [H4 [_ H6]]]]]].
  exists s. split; [exact H1|]. split.
  - intros n Hin. destruct (H4 _ _ Hin) as [Hn _]. rewrite Hn.
    unfold occurs. simpl. reflexivity.
  - simpl in H6. lia.
Defined.

(** ** The overview *)

Section OverviewFacts.

Lemma missing_le (n : nat) (df : DataFrame) :
  (forall c, In c df -> length (values c) = n) ->
  series_sum (isna_sum df) <= n * length df.
Proof.
  induction df as [|c df IH]; intros H; simpl; [lia|].
  fold (series_sum (isna_sum df)).
  assert (length (filter isna (values c)) <= n)
    by (rewrite <- (H c) by (now left); apply filter_length_le).
  assert (series_sum (isna_sum df) <= n * length df)
    by (apply IH; intros; apply H; now right).
  lia.
Qed.

Lemma missing_zero (df : DataFrame) :
  series_sum (isna_sum df) = 0 <->
  forall c, In c df -> ~ In NaN (values c).
Proof.
  induction df as [|c df IH]; simpl.
  - split; [intros _ c [] | reflexivity].
  - fold (series_sum (isna_sum df)). split.
    + intros Hz c' [<-|Hc'] Hin.
      * assert (In NaN (filter isna (values c))) as H
            by (apply filter_In; now split).
        destruct (filter isna (values c)); [destruct H | simpl in Hz; lia].
      * assert (series_sum (isna_sum df) = 0) as Hz' by lia.
        exact (proj1 IH Hz' c' Hc' Hin).
    + intros H.
      assert (filter isna (values c) = []) as ->.
      { destruct (filter isna (values c)) as [|x l] eqn:E; trivial.
        exfalso. assert (In x (filter isna (values c))) as Hx
            by (rewrite E; now left).
        apply filter_In in Hx. destruct Hx as [Hx Hna].
        destruct x; try discriminate. apply (H c); auto. }
      simpl. apply IH. intros c' Hc'. apply H. now right.
Qed.

Lemma head_rows_all (n : nat) (df : DataFrame) :
  (forall c, In c df -> length (values c) <= n) -> head_rows n df = df.
Proof.
  unfold head_rows. induction df as [|c df IH]; intros H; simpl; trivial.
  rewrite firstn_all2 by (apply H; now left).
  rewrite IH by (intros; apply H; now right).
  now destruct c.
Qed.

End OverviewFacts.

(** X19.  The overview of a frame whose columns all have the same
    length: the missing-value metric is at most rows times columns, and
    it is 0 exactly when no column holds a missing cell; the preview
    keeps the labels and dtypes of the columns, in order, and shows the
    first 10 rows, all of them when the frame has no more than 10. *)
Theorem overview_metrics (df : DataFrame) :
  rectangular df ->
  metrics df = (fst (shape df), length df, snd (metrics df)) /\
  snd (metrics df) <= fst (shape df) * length df /\
  (snd (metrics df) = 0 <-> forall c, In c df -> ~ In NaN (values c)) /\
  columns (preview df) = columns df /\
  map dt (preview df) = map dt df /\
  rectangular (preview df) /\
  fst (shape (preview df)) = Nat.min 10 (fst (shape df)) /\
  (fst (shape df) <= 10 -> preview df = df).
Proof.
  intros Hrect. unfold metrics, preview. cbn [fst snd].
  split; [reflexivity|].
  split; [now apply missing_le|].
  split; [apply missing_zero|].
  assert (fst (shape (head_rows 10 df)) = Nat.min 10 (fst (shape df)))
    as Hrows.
  { destruct df as [|c df]; [reflexivity|].
    cbn [head_rows map shape fst values]. apply length_firstn. }
  split; [unfold head_rows, columns; rewrite map_map; reflexivity|].
  split; [unfold head_rows; rewrite map_map; reflexivity|].
  split; [|split; [exact Hrows|]].
  - intros c Hc. rewrite Hrows. unfold head_rows in Hc.
    apply in_map_iff in Hc. destruct Hc as [c' [<- Hc']].
    cbn [values]. rewrite length_firstn. now rewrite (Hrect c' Hc').
  - intros Hle. apply head_rows_all. intros c Hc.
    now rewrite (Hrect c Hc).
Qed.

Lemma rectangular_sales : rectangular Samples.sales.
Proof.
  intros c [<-|[<-|[]]]; reflexivity.
Defined.

Lemma overview_metrics_sales :
  metrics Samples.sales = (11, 2, 0) /\
  fst (shape (preview Samples.sales)) = 10.
Proof.
  destruct (overview_metrics Samples.sales rectangular_sales)
    as [H1 [_ [_ [_ [_ [_ [H7 _]]]]]]].
  split; [reflexivity | exact H7].
Defined.

(** ** The slider *)

(** X20.  Moving the slider up only extends the ranking: the ranking for
    [k] is the first [k] rows of the ranking for any larger [k'], and
    the two raise together. *)
Theorem corr_prefix (df : DataFrame) (target : string) (k k' : nat) :
  k <= k' ->
  corr df target k
  = bind (corr df target k') (fun r' => Ok (head k r')).
Proof.
  intros Hle. unfold corr.
  destruct (frame_getitem _ _) as [s|e]; [|reflexivity]. cbn [bind].
  destruct (series_drop s target) as [s'|e]; [|reflexivity]. cbn [bind].
  unfold head. rewrite firstn_firstn.
  now replace (Nat.min k k') with k by lia.
Qed.

Lemma corr_prefix_slopes :
  corr Samples.slopes "yield" 5
  = bind (corr Samples.slopes "yield" 20) (fun r' => Ok (head 5 r')).
Proof.
  apply (corr_prefix Samples.slopes "yield" 5 20). lia.
Defined.
